(** * Elevation cross-section: grid generation, batched fetch and CSV cache

    A shallow embedding of [ElevationPlot/data_manager.py] and [main.py].

    - Python floats are IEEE binary64 numbers: Rocq's primitive [float].
    - A Python exception is a value of [exn]; a call that may raise returns
      an [outcome].
    - The functions that touch the disk or the network run in the monad [M],
      which threads a [world]: the files of the data directory and the log
      of the URLs requested so far.
    - What the Python runtime and its libraries supply and the repository
      does not define is a variable of the section [Program]: the text of a
      float ([str]), the decimal rounding of a float ([round]), the parsing
      of a float ([float_of_string]), the remote service ([transport]) and
      the directory of the package ([module_dir]).
    - [numpy.linspace] is modelled after numpy's implementation, as far as
      the program calls it (scalar ends, [endpoint=True]).
    - A file is the list of the rows that the [csv] module writes and
      reads; the quoting and line ends of the [csv] module are not
      modelled, and opening a file of the data directory always succeeds.
    - The service answers every request, with a JSON object or with a
      status code; a request that raises inside [requests.get] is not
      modelled.
    - The progress bar only prints and the busy wait on [time.time()]
      only delays: in [fetch] both are steps that change nothing. What
      depends on the time is stated on [Timed.fetch], the same loop with
      the clock that [time.time()] reads. *)

From Stdlib Require Import Floats ZArith Ascii.
From stdpp Require Import gmap strings list pretty.

Open Scope string_scope.
Open Scope list_scope.

(** ** Exceptions and outcomes *)

Inductive exn : Type :=
| TimeoutError (msg : string)
| ValueError (msg : string)
| KeyError (key : string)
| IndexError.

Inductive outcome (A : Type) : Type :=
| Ok (a : A)
| Raise (e : exn).
Arguments Ok {A} a.
Arguments Raise {A} e.

Definition obind {A B : Type} (c : outcome A) (k : A -> outcome B) : outcome B :=
  match c with
  | Ok a => k a
  | Raise e => Raise e
  end.

Declare Scope outcome_scope.
Delimit Scope outcome_scope with outcome.
Notation "x <~ c ;; k" := (obind c (fun x => k))
  (at level 100, c at next level, right associativity) : outcome_scope.

(** ** Floats *)

(** The float of a non-negative machine-size integer (an array index). *)
Definition float_of_Z (z : Z) : float := PrimFloat.of_uint63 (Uint63.of_Z z).

(** [numpy.arange(0, num)] as floats. *)
Definition arange (num : Z) : list float :=
  map (fun i => float_of_Z (Z.of_nat i)) (seq 0 (Z.to_nat num)).

(** [y[-1] = stop] on a non-empty array. *)
Definition set_last (y : list float) (stop : float) : list float :=
  <[pred (length y) := stop]> y.

(** [numpy.linspace(start, stop, num)]: [num] samples, the last one set to
    [stop] when there are at least two; a negative [num] raises. *)
Definition linspace (start stop : float) (num : Z) : outcome (list float) :=
  if (num <? 0)%Z then
    Raise (ValueError ("Number of samples, " +:+ pretty num +:+ ", must be non-negative."))
  else
    let div := (num - 1)%Z in
    let delta := (stop - start)%float in
    let y := arange num in
    let y :=
      if (0 <? div)%Z then
        let step := (delta / float_of_Z div)%float in
        if (step =? 0)%float then
          map (fun v => (v / float_of_Z div * delta)%float) y
        else
          map (fun v => (v * step)%float) y
      else
        map (fun v => (v * delta)%float) y in
    let y := map (fun v => (v + start)%float) y in
    Ok (if (1 <? num)%Z then set_last y stop else y).

(** ** The world: files and requests *)

(** A CSV file as the [csv] module reads and writes it: rows of text fields. *)
Abbreviation csv_file := (list (list string)) (only parsing).

(** The files of the data directory by path, and the URLs requested so far,
    the latest first. *)
Record world : Type := World {
  files : gmap string csv_file;
  sent : list string
}.

Definition M (A : Type) : Type := world -> outcome A * world.

Definition ret {A : Type} (a : A) : M A := fun w => (Ok a, w).
Definition raise {A : Type} (e : exn) : M A := fun w => (Raise e, w).
Definition bind {A B : Type} (c : M A) (k : A -> M B) : M B :=
  fun w =>
    match c w with
    | (Ok a, w') => k a w'
    | (Raise e, w') => (Raise e, w')
    end.
Definition lift {A : Type} (c : outcome A) : M A := fun w => (c, w).

Declare Scope M_scope.
Delimit Scope M_scope with M.
Notation "x <- c ;; k" := (bind c (fun x => k))
  (at level 100, c at next level, right associativity) : M_scope.

(** ** The service's answers *)

(** One entry of the [results] of the service's JSON answer:
    [{'location': {'lat': .., 'lng': ..}, 'elevation': ..}], the elevation
    [None] where the service has no data. *)
Record location : Type := Location { lat : float; lng : float }.
Record result : Type := Result { loc : location; elevation : option float }.

(** What [_get] returns: the parsed JSON object of a 200 answer, or the
    status code of any other answer. The JSON object is taken as
    well-formed: it has [results], and every entry has its three fields. *)
Inductive response : Type :=
| Dict (results : list result)
| Status (status_code : Z).

(** A float or [None], as the lists handed to [store_plot] hold them. *)
Definition cell : Type := option float.

(** The keyword arguments of [API_call]; a missing one is [None]. *)
Record kwargs : Type := Kwargs {
  from_coords : option (float * float);
  to_coords : option (float * float);
  center_coords : option (float * float);
  horizontal_data_points : option Z;
  vertical_data_points : option Z;
  width : option float;
  height : option float
}.

(** The keyword arguments of the call in [main.py]. *)
#[warnings="-inexact-float"]
Definition main_kwargs : kwargs :=
  {| from_coords := None; to_coords := None;
     center_coords := Some (46.1914, -122.1956)%float;
     horizontal_data_points := Some 50%Z; vertical_data_points := Some 50%Z;
     width := Some 0.075%float; height := Some 0.075%float |}.

(** ** Constants *)

Definition BASE_URL : string := "https://api.opentopodata.org/v1/srtm90m?locations=".
Definition RETRIES : nat := 10.
Definition CSV_HEADER : list string := ["Lat(X)"; "Lng(Y)"; "Elevation(Z)"].
Definition MODES : list string := ["from_to"; "around"].

(** [s[:-1]]: the text without its last character. *)
Definition drop_last (s : string) : string :=
  String.substring 0 (String.length s - 1) s.

(** ** The program *)

Section Program.

(** Python's [str] on a float. *)
Variable str : float -> string.
(** Python's [round(x, ndigits)] on a float. *)
Variable round : float -> Z -> float.

(** *** Grid generation *)

(** [fetch_format_from_to]: for every [y] of the vertical samples, the pairs
    [(str(round(x, 7)), str(y))] over the horizontal samples. The outer
    [linspace] runs once, the inner one at the start of every row. *)
Fixpoint from_to_rows (x0 x1 : float) (horizontal_data_points : Z)
    (ys : list float) (formatted_coords : list (string * string))
    : outcome (list (string * string)) :=
  match ys with
  | [] => Ok formatted_coords
  | y :: ys' =>
      (xs <~ linspace x0 x1 horizontal_data_points ;;
       from_to_rows x0 x1 horizontal_data_points ys'
         (formatted_coords ++ map (fun x => (str (round x 7), str y)) xs))%outcome
  end.

Definition fetch_format_from_to (from_coords to_coords : float * float)
    (horizontal_data_points vertical_data_points : Z)
    : outcome (list (string * string)) :=
  (ys <~ linspace (snd from_coords) (snd to_coords) vertical_data_points ;;
   from_to_rows (fst from_coords) (fst to_coords) horizontal_data_points ys [])%outcome.

Definition fetch_format_around (center_coords : float * float)
    (horizontal_data_points vertical_data_points : Z) (width height : float)
    : outcome (list (string * string)) :=
  let from_coords :=
    ((fst center_coords - width / 2)%float, (snd center_coords - height / 2)%float) in
  let to_coods :=
    ((fst center_coords + width / 2)%float, (snd center_coords + height / 2)%float) in
  fetch_format_from_to from_coords to_coods horizontal_data_points vertical_data_points.

(** *** The requests *)

(** The remote service: its answer to a URL, given the URLs requested
    before (the latest first). *)
Variable transport : list string -> string -> response.

(** [_get]: one request; it is logged in the world. (The status code that
    [_get] prints on an error is not modelled.) *)
Definition _get (url : string) : M response :=
  fun w => (Ok (transport (sent w) url), World (files w) (url :: sent w)).

(** [for _ in range(RETRIES): if type(response := _get(url)) == dict: break]
    with its [else: raise TimeoutError]. *)
Fixpoint get_retrying (tries : nat) (url : string) : M (list result) :=
  match tries with
  | O => raise (TimeoutError "Server not returning data")
  | S tries' =>
      (response <- _get url ;;
       match response with
       | Dict results => ret results
       | Status _ => get_retrying tries' url
       end)%M
  end.

(** Modelled from the spec: [printProgressBar] of [progress_bar.py], which
    is not among the sources. The spec makes the progress observer "purely
    informational": the call returns and changes nothing. *)
Definition printProgressBar (iteration total : nat) : M unit := ret tt.

(** [while time.time() - timer < 1: pass]. Without a clock the wait ends
    and changes nothing; [Timed.rate_limit_wait] is the wait on a clock. *)
Definition rate_limit_wait : M unit := ret tt.

(** One turn of the loop of [fetch] on [(coords_url, data)]; [total] is
    [len(coords)]. *)
Definition fetch_body (total index : nat) (coord : string * string)
    (st : string * list result) : M (string * list result) :=
  let coords_url := fst st +:+ fst coord +:+ "," +:+ snd coord +:+ "|" in
  if (index mod 100 =? 0)%nat then
    let coords_url := drop_last coords_url in
    (_ <- rate_limit_wait ;;
     results <- get_retrying RETRIES (BASE_URL +:+ coords_url) ;;
     _ <- printProgressBar index total ;;
     if forallb (fun r => bool_decide (elevation r <> None)) results
     then ret ("", snd st ++ results)
     else raise (ValueError ("API didn't like your coordinates: " +:+ coords_url)))%M
  else ret (coords_url, snd st).

(** [for index, coord in enumerate(coords)], from [index] on. *)
Fixpoint fetch_loop (total index : nat) (coords : list (string * string))
    (st : string * list result) : M (string * list result) :=
  match coords with
  | [] => ret st
  | coord :: coords' =>
      (st' <- fetch_body total index coord st ;;
       fetch_loop total (S index) coords' st')%M
  end.

(** [fetch]: the loop has no [break], so its [else] branch returns [data]
    whenever no turn raised. *)
Definition fetch (coords : list (string * string)) : M (list result) :=
  (_ <- printProgressBar 0 (length coords) ;;
   st <- fetch_loop (length coords) 0 coords ("", []) ;;
   _ <- printProgressBar (length coords) (length coords) ;;
   ret (snd st))%M.

(** [plot_format]: the three columns of the answers. *)
Definition plot_format (response : list result) : list cell * list cell * list cell :=
  (map (fun r => Some (lat (loc r))) response,
   map (fun r => Some (lng (loc r))) response,
   map (fun r => elevation r) response).

(** [kwargs[key]]. *)
Definition kwarg {A : Type} (key : string) (v : option A) : outcome A :=
  match v with
  | Some a => Ok a
  | None => Raise (KeyError key)
  end.

(** The branch of [API_call] that sets [formatted_coords]: the corridor
    generator for [MODES[0]], the centred one otherwise. The keyword
    arguments are read from left to right. *)
Definition format_coords (mode : string) (kw : kwargs)
    : outcome (list (string * string)) :=
  if bool_decide (Some mode = MODES !! 0%nat) then
    (a <~ kwarg "from_coords" (from_coords kw) ;;
     b <~ kwarg "to_coords" (to_coords kw) ;;
     nx <~ kwarg "horizontal_data_points" (horizontal_data_points kw) ;;
     ny <~ kwarg "vertical_data_points" (vertical_data_points kw) ;;
     fetch_format_from_to a b nx ny)%outcome
  else
    (c <~ kwarg "center_coords" (center_coords kw) ;;
     nx <~ kwarg "horizontal_data_points" (horizontal_data_points kw) ;;
     ny <~ kwarg "vertical_data_points" (vertical_data_points kw) ;;
     w <~ kwarg "width" (width kw) ;;
     h <~ kwarg "height" (height kw) ;;
     fetch_format_around c nx ny w h)%outcome.

Definition API_call (mode : string) (kw : kwargs) : M (list cell * list cell * list cell) :=
  if bool_decide (mode ∈ MODES) then
    (formatted_coords <- lift (format_coords mode kw) ;;
     response <- fetch formatted_coords ;;
     ret (plot_format response))%M
  else
    raise (ValueError ("Please select a mode from MODES: " +:+ "['from_to', 'around']")).

(** *** The cache *)

(** Python's [float] on a text; [None] where it raises [ValueError]. *)
Variable float_of_string : string -> option float.
(** The directory of the package, [pathlib.Path(__file__).parent.absolute()]. *)
Variable module_dir : string.

Definition data_path (plot_name : string) : string :=
  module_dir +:+ "/data/" +:+ plot_name +:+ ".csv".

(** The text the [csv] writer puts in a field: [str] of a float, nothing
    for [None]. *)
Definition field (c : cell) : string :=
  match c with
  | Some f => str f
  | None => ""
  end.

(** The rows [[X[i], Y[i], Z[i]]] for [i] in [range(len(X))], on lists of
    one length. *)
Definition data_rows (X Y Z : list cell) : csv_file :=
  map (fun xyz => [field xyz.1.1; field xyz.1.2; field xyz.2]) (zip (zip X Y) Z).

Definition store_plot (X Y Z : list cell) (plot_name : string) (overwrite : bool) : M bool :=
  fun w =>
    let path := data_path plot_name in
    if bool_decide (length X = length Y) && bool_decide (length Y = length Z) then
      if overwrite || negb (bool_decide (is_Some (files w !! path))) then
        (Ok true, World (<[path := CSV_HEADER :: data_rows X Y Z]> (files w)) (sent w))
      else (Ok false, w)
    else (Ok false, w).

(** [float(row[i])]. *)
Definition float_at (row : list string) (i : nat) : outcome float :=
  match row !! i with
  | None => Raise IndexError
  | Some s =>
      match float_of_string s with
      | Some f => Ok f
      | None => Raise (ValueError ("could not convert string to float: '" +:+ s +:+ "'"))
      end
  end.

(** The rows after the header, appended to [x], [y], [z]. *)
Fixpoint load_rows (rows : csv_file) (x y z : list float)
    : outcome (list float * list float * list float) :=
  match rows with
  | [] => Ok (x, y, z)
  | row :: rows' =>
      (a <~ float_at row 0 ;;
       b <~ float_at row 1 ;;
       c <~ float_at row 2 ;;
       load_rows rows' (x ++ [a]) (y ++ [b]) (z ++ [c]))%outcome
  end.

(** [load_data]: [None] when there is no file; the row of index 0 is
    skipped. *)
Definition load_data (plot_name : string)
    : M (option (list float * list float * list float)) :=
  fun w =>
    match files w !! data_path plot_name with
    | Some rows =>
        (match load_rows (tail rows) [] [] [] with
         | Ok d => Ok (Some d)
         | Raise e => Raise e
         end, w)
    | None => (Ok None, w)
    end.

(** *** The script *)

(** [main.py] up to the plot, with its plot name, mode and keyword
    arguments as parameters. A tuple of three lists is true in Python, so
    the first branch is taken exactly when [load_data] returns one. *)
Definition run_with_cache (plot_name mode : string) (kw : kwargs)
    : M (list cell * list cell * list cell) :=
  (coords <- load_data plot_name ;;
   match coords with
   | Some (x, y, z) => ret (map Some x, map Some y, map Some z)
   | None =>
       XYZ <- API_call mode kw ;;
       let '(X, Y, Z) := XYZ in
       _ <- store_plot X Y Z plot_name true ;;
       ret (X, Y, Z)
   end)%M.

(** [main.py] as it stands. *)
Definition main : M (list cell * list cell * list cell) :=
  run_with_cache "mt_st_helens" "around" main_kwargs.

End Program.

(** ** The program with a clock *)

(** [fetch] once more, with the clock that [time.time()] reads. The clock
    counts units of any fixed size (the code's float seconds, taken as
    exact). Time passes while a request is under way and between two
    readings of the clock in the busy wait; the other statements take no
    time. *)
Module Timed.

(** The files, the requests made so far, each with the time at which it
    started (the latest first), and the time. *)
Record tworld : Type := TWorld {
  stored : gmap string csv_file;
  requests : list (string * Z);
  now : Z
}.


Definition T (A : Type) : Type := tworld -> outcome A * tworld.

Definition ret {A : Type} (a : A) : T A := fun w => (Ok a, w).
Definition raise {A : Type} (e : exn) : T A := fun w => (Raise e, w).
Definition bind {A B : Type} (c : T A) (k : A -> T B) : T B :=
  fun w =>
    match c w with
    | (Ok a, w') => k a w'
    | (Raise e, w') => (Raise e, w')
    end.

Declare Scope T_scope.
Delimit Scope T_scope with T.
Notation "x <- c ;; k" := (bind c (fun x => k))
  (at level 100, c at next level, right associativity) : T_scope.

Section Program.

Variable transport : list string -> string -> response.
(** The time a request takes until [requests.get] returns, given the URLs
    requested before (the latest first). *)
Variable took : list string -> string -> N.
(** The time from one reading of the clock in the busy wait to the next. *)
Variable tick : positive.
(** The length of a second. *)
Variable second : positive.

(** [time.time()]. *)
Definition time : T Z := fun w => (Ok (now w), w).

(** [_get]: the request starts now, and the call returns when the request
    has taken its time. *)
Definition _get (url : string) : T response :=
  fun w =>
    let earlier := map fst (requests w) in
    (Ok (transport earlier url),
     TWorld (stored w) ((url, now w) :: requests w)
       (now w + Z.of_N (took earlier url))).

Fixpoint get_retrying (tries : nat) (url : string) : T (list result) :=
  match tries with
  | O => raise (TimeoutError "Server not returning data")
  | S tries' =>
      (response <- _get url ;;
       match response with
       | Dict results => ret results
       | Status _ => get_retrying tries' url
       end)%T
  end.

(** Modelled from the spec: [printProgressBar] of [progress_bar.py], which
    is not among the sources. The spec makes the progress observer "purely
    informational": the call returns and changes nothing. *)
Definition printProgressBar (iteration total : nat) : T unit := ret tt.

(** [pass], and the way back to the test of the [while]. *)
Definition pass : T unit :=
  fun w => (Ok tt, TWorld (stored w) (requests w) (now w + Z.pos tick)).

(** [while time.time() - timer < 1: pass], for at most [readings] readings
    of the clock. *)
Fixpoint busy_wait (readings : nat) (timer : Z) : T unit :=
  match readings with
  | O => ret tt
  | S readings' =>
      (t <- time ;;
       if (t - timer <? Z.pos second)%Z
       then (_ <- pass ;; busy_wait readings' timer)
       else ret tt)%T
  end.

(** The busy wait of [fetch]. Every reading of the clock is later than the
    one before, so the test fails within [timer + 1 - time.time()] readings
    after the first. *)
Definition rate_limit_wait (timer : Z) : T unit :=
  fun w => busy_wait (S (Z.to_nat (timer + Z.pos second - now w))) timer w.

(** One turn of the loop of [fetch] on [(coords_url, data, timer)]. *)
Definition fetch_body (total index : nat) (coord : string * string)
    (st : string * list result * Z) : T (string * list result * Z) :=
  let '(coords_url, data, timer) := st in
  let coords_url := coords_url +:+ fst coord +:+ "," +:+ snd coord +:+ "|" in
  if (index mod 100 =? 0)%nat then
    let coords_url := drop_last coords_url in
    (_ <- rate_limit_wait timer ;;
     results <- get_retrying RETRIES (BASE_URL +:+ coords_url) ;;
     _ <- printProgressBar index total ;;
     if forallb (fun r => bool_decide (elevation r <> None)) results
     then (timer <- time ;; ret ("", data ++ results, timer))
     else raise (ValueError ("API didn't like your coordinates: " +:+ coords_url)))%T
  else ret (coords_url, data, timer).

Fixpoint fetch_loop (total index : nat) (coords : list (string * string))
    (st : string * list result * Z) : T (string * list result * Z) :=
  match coords with
  | [] => ret st
  | coord :: coords' =>
      (st' <- fetch_body total index coord st ;;
       fetch_loop total (S index) coords' st')%T
  end.

(** [fetch], from [timer = time.time() - 1] on. *)
Definition fetch (coords : list (string * string)) : T (list result) :=
  (t <- time ;;
   let timer := (t - Z.pos second)%Z in
   _ <- printProgressBar 0 (length coords) ;;
   st <- fetch_loop (length coords) 0 coords ("", [], timer) ;;
   _ <- printProgressBar (length coords) (length coords) ;;
   ret (snd (fst st)))%T.

End Program.

End Timed.

(** ** Readings used in the statements *)

(** The sample of index [i] of [linspace start stop num], one by one: the
    end itself at the last index of two or more samples, the scaled index
    plus [start] elsewhere. *)
Definition linspace_at (start stop : float) (num : Z) (i : nat) : float :=
  if (1 <? num)%Z && (Z.of_nat i =? num - 1)%Z then stop
  else
    let v := float_of_Z (Z.of_nat i) in
    let div := (num - 1)%Z in
    let delta := (stop - start)%float in
    ((if (0 <? div)%Z then
        let step := (delta / float_of_Z div)%float in
        if (step =? 0)%float then (v / float_of_Z div * delta)%float
        else (v * step)%float
      else (v * delta)%float) + start)%float.

(** The factor that scales the index in [linspace]: the step between two
    samples when there are at least two, the whole distance otherwise. *)
Definition linspace_step (start stop : float) (num : Z) : float :=
  if (0 <? num - 1)%Z then ((stop - start) / float_of_Z (num - 1))%float
  else (stop - start)%float.

(** The URL that [fetch] requests when [coord] closes a batch and the loop
    holds [coords_url] (the text gathered since the last request). *)
Definition batch_request (coords_url : string) (coord : string * string) : string :=
  BASE_URL +:+ drop_last (coords_url +:+ fst coord +:+ "," +:+ snd coord +:+ "|").

(** The text [fetch] gathers for the coordinates [batch], before the last
    character is cut. *)
Definition gathered (batch : list (string * string)) : string :=
  fold_left (fun url coord => url +:+ fst coord +:+ "," +:+ snd coord +:+ "|") batch "".

(** The URL [fetch] requests for the coordinates [batch]. *)
Definition batch_url (batch : list (string * string)) : string :=
  BASE_URL +:+ drop_last (gathered batch).

(** The batches [fetch] requests for [coords] from [index] on, [pending]
    being the coordinates gathered and not yet requested: a batch is closed
    by every coordinate whose index is a multiple of 100. *)
Fixpoint batches_from (index : nat) (coords pending : list (string * string))
    : list (list (string * string)) :=
  match coords with
  | [] => []
  | coord :: coords' =>
      if (index mod 100 =? 0)%nat
      then (pending ++ [coord]) :: batches_from (S index) coords' []
      else batches_from (S index) coords' (pending ++ [coord])
  end.

(** A coordinate as the URL has it: [x,y]. *)
Definition pair_text (coord : string * string) : string :=
  fst coord +:+ "," +:+ snd coord.

(** Whether a keyword argument is given. *)
Definition present {A : Type} (v : option A) : bool :=
  match v with
  | Some _ => true
  | None => false
  end.

(** The keyword arguments that [API_call] reads in a mode, in the order in
    which it reads them, each with whether it is given. *)
Definition required_kwargs (mode : string) (kw : kwargs) : list (string * bool) :=
  if bool_decide (Some mode = MODES !! 0%nat) then
    [("from_coords", present (from_coords kw));
     ("to_coords", present (to_coords kw));
     ("horizontal_data_points", present (horizontal_data_points kw));
     ("vertical_data_points", present (vertical_data_points kw))]
  else
    [("center_coords", present (center_coords kw));
     ("horizontal_data_points", present (horizontal_data_points kw));
     ("vertical_data_points", present (vertical_data_points kw));
     ("width", present (width kw));
     ("height", present (height kw))].

(** The first key of the list that is not given. *)
Fixpoint first_missing (keys : list (string * bool)) : option string :=
  match keys with
  | [] => None
  | (key, given) :: keys' => if given then first_missing keys' else Some key
  end.




(** ** Examples of the runtime's parts, for running the model *)

(** The binary digits of a positive number, the lowest first. *)
Fixpoint bits_of (p : positive) : list bool :=
  match p with
  | xH => [true]
  | xO p' => false :: bits_of p'
  | xI p' => true :: bits_of p'
  end.

(** The hexadecimal digit of four binary digits, the lowest first. *)
Definition hex_digit (b0 b1 b2 b3 : bool) : ascii :=
  match b3, b2, b1, b0 with
  | false, false, false, false => "0" | false, false, false, true => "1"
  | false, false, true, false => "2" | false, false, true, true => "3"
  | false, true, false, false => "4" | false, true, false, true => "5"
  | false, true, true, false => "6" | false, true, true, true => "7"
  | true, false, false, false => "8" | true, false, false, true => "9"
  | true, false, true, false => "a" | true, false, true, true => "b"
  | true, true, false, false => "c" | true, true, false, true => "d"
  | true, true, true, false => "e" | true, true, true, true => "f"
  end%char.

(** The hexadecimal digits of binary digits (the lowest first), the highest
    digit first, before [acc]. *)
Fixpoint hex_digits (bits : list bool) (acc : string) : string :=
  match bits with
  | b0 :: b1 :: b2 :: b3 :: bits' => hex_digits bits' (String (hex_digit b0 b1 b2 b3) acc)
  | [b0; b1; b2] => String (hex_digit b0 b1 b2 false) acc
  | [b0; b1] => String (hex_digit b0 b1 false false) acc
  | [b0] => String (hex_digit b0 false false false) acc
  | [] => acc
  end.

(** [m / 2^k] when that is an integer. *)
Fixpoint halve (m : positive) (k : nat) : option positive :=
  match k, m with
  | O, _ => Some m
  | S k', xO m' => halve m' k'
  | S _, _ => None
  end.

(** An example of the runtime's float text, for running the model: Python's
    text on the integer-valued floats below 2^53 in magnitude (["2.0"],
    ["-7.0"]); on the other finite floats, the mantissa in hexadecimal
    digits over a power of two (which is exact, and not Python's text). *)
Definition str_example (f : float) : string :=
  match Prim2SF f with
  | S754_zero s => if s then "-0.0" else "0.0"
  | S754_infinity s => if s then "-inf" else "inf"
  | S754_nan => "nan"
  | S754_finite s m e =>
      let sign := if s then "-" else "" in
      match e with
      | Zneg k =>
          match halve m (Pos.to_nat k) with
          | Some q => sign +:+ pretty (Z.pos q) +:+ ".0"
          | None => sign +:+ "0x" +:+ hex_digits (bits_of m) ("/2^" +:+ pretty (Z.pos k))
          end
      | _ => sign +:+ pretty (Z.pos m * 2 ^ e)%Z +:+ ".0"
      end
  end.

(** An example of the runtime's [round]: rounding to [ndigits >= 0] decimals
    leaves an integer-valued float as it is; this example leaves every float
    as it is, and is Python's [round] on the integer-valued ones only. *)
Definition round_example (f : float) (ndigits : Z) : float := f.

(** The value of a text of decimal digits. *)
Fixpoint digits_value (s : string) (acc : Z) : option Z :=
  match s with
  | EmptyString => Some acc
  | String c s' =>
      let d := (Z.of_nat (Ascii.nat_of_ascii c) - 48)%Z in
      if ((0 <=? d) && (d <=? 9))%Z then digits_value s' (10 * acc + d)%Z else None
  end.

(** An example of the runtime's [float]: Python's [float] on the texts
    [<digits>.0] with an optional minus sign; every other text is refused. *)
Definition float_of_string_example (s : string) : option float :=
  let '(negative, body) :=
    match s with
    | String "-"%char s' => (true, s')
    | _ => (false, s)
    end in
  let n := String.length body in
  if (2 <? n)%nat && String.eqb (String.substring (n - 2) 2 body) ".0" then
    match digits_value (String.substring 0 (n - 2) body) 0 with
    | Some z => Some (if negative then (- float_of_Z z)%float else float_of_Z z)
    | None => None
    end
  else None.

(** The pieces of [s] between the separators [sep]; [cur] is the piece
    being read. *)
Fixpoint split_on (sep : ascii) (s cur : string) : list string :=
  match s with
  | EmptyString => [cur]
  | String c s' =>
      if Ascii.eqb c sep then cur :: split_on sep s' ""
      else split_on sep s' (cur +:+ String c "")
  end.

(** The answer of the example service for one coordinate: the coordinate
    itself and an elevation of 100 metres. *)
Definition example_answer (coord : string * string) : result :=
  Result (Location (default 0%float (float_of_string_example (fst coord)))
                   (default 0%float (float_of_string_example (snd coord))))
         (Some 100%float).

(** An example service that always succeeds: it answers every request with
    one result per coordinate of the query, in the order of the query. *)
Definition example_service (earlier : list string) (url : string) : response :=
  let query :=
    String.substring (String.length BASE_URL)
      (String.length url - String.length BASE_URL) url in
  Dict (map (fun pair =>
               match split_on ","%char pair "" with
               | [a; b] => example_answer (a, b)
               | _ => Result (Location 0 0) None
               end)
          (split_on "|"%char query "")).

(** A service that is down: every request is answered by status 503. *)
Definition example_outage (earlier : list string) (url : string) : response :=
  Status 503.

(** The world before anything is stored or requested, and a directory for
    the package. *)
Definition empty_world : world := World ∅ [].
Definition example_dir : string := "/srv/ElevationPlot".

(** A service that is down for the first request and then answers with a
    result that has no elevation. *)
Definition example_no_coverage (earlier : list string) (url : string) : response :=
  match earlier with
  | [] => Status 503
  | _ => Dict [Result (Location 0 0) None]
  end.

(** A world in which the plot [hill] is stored. *)
Definition hill_world : world :=
  World {[ "/srv/ElevationPlot/data/hill.csv" :=
             [CSV_HEADER; ["1.0"; "3.0"; "100.0"]; ["2.0"; "4.0"; "250.0"]] ]} [].

(** The keyword arguments of a centred grid of 2 by 2 points around
    [(1, 1)], 2 degrees wide and high. *)
Definition example_kwargs : kwargs :=
  {| from_coords := None; to_coords := None;
     center_coords := Some (1, 1)%float;
     horizontal_data_points := Some 2%Z; vertical_data_points := Some 2%Z;
     width := Some 2%float; height := Some 2%float |}.

(** The grid of [main.py] under the example text of floats. *)
Definition main_coords_example : list (string * string) :=
  match format_coords str_example round_example "around" main_kwargs with
  | Ok coords => coords
  | Raise _ => []
  end.

(** A service that is down for the first request and answers every later
    one as the example service does. *)
Definition example_recovering (earlier : list string) (url : string) : response :=
  match earlier with
  | [] => Status 503
  | _ => example_service earlier url
  end.

(** ** Facts on [linspace] *)

Lemma Ok_inj {A : Type} (a b : A) : Ok a = Ok b -> a = b.
Proof. intros H. injection H as H. exact H. Qed.

(** A finite float is a zero or has a mantissa and an exponent. *)
Lemma Prim2SF_finite_cases (a : float) :
  is_finite a = true ->
  (exists s, Prim2SF a = S754_zero s) \/
  (exists s m e, Prim2SF a = S754_finite s m e).
Proof.
  unfold is_finite. intros H.
  apply Bool.negb_true_iff, Bool.orb_false_iff in H as [Hnan Hinf].
  unfold Prim2SF. rewrite Hnan, Hinf.
  destruct (is_zero a); [left; eauto|].
  destruct (Z.frexp a) as [r ex].
  destruct (shr_fexp _ _ _ _ _) as [shr e'].
  destruct (shr_m shr); [left; eauto | right; eauto | left; eauto].
Qed.

(** In binary64 arithmetic [0 * a + s] is [s] for a finite [a]; when [s] is
    the negative zero the sum may be the positive zero instead. *)
Lemma zero_mul_add_zero (a s : float) :
  is_finite a = true ->
  (0 * a + s)%float = s \/ (s = neg_zero /\ (0 * a + s)%float = 0%float).
Proof.
  intros Ha.
  assert (H : Prim2SF (0 * a + s)%float = Prim2SF s \/
              (Prim2SF s = S754_zero true /\
               Prim2SF (0 * a + s)%float = S754_zero false)).
  { rewrite add_spec, mul_spec.
    change (Prim2SF 0) with (S754_zero false).
    destruct (Prim2SF_finite_cases a Ha) as [[sa ->]|[sa [m [e ->]]]];
      destruct (Prim2SF s) as [[|]| | |]; destruct sa; simpl; auto. }
  destruct H as [H|[Hs H]].
  - left. apply Prim2SF_inj. exact H.
  - right. split; apply Prim2SF_inj; [rewrite Hs|rewrite H]; reflexivity.
Qed.

(** When the step [delta / d] is zero, so is [0 / d * delta], and adding it
    to [s] gives [s] (or the positive zero for the negative one). *)
Lemma zero_div_mul_add_zero (delta d s : float) :
  (delta / d =? 0)%float = true ->
  (0 / d * delta + s)%float = s \/
  (s = neg_zero /\ (0 / d * delta + s)%float = 0%float).
Proof.
  intros Hstep.
  rewrite FloatAxioms.eqb_spec, div_spec in Hstep.
  assert (H : Prim2SF (0 / d * delta + s)%float = Prim2SF s \/
              (Prim2SF s = S754_zero true /\
               Prim2SF (0 / d * delta + s)%float = S754_zero false)).
  { rewrite add_spec, mul_spec, div_spec.
    change (Prim2SF 0) with (S754_zero false) in *.
    destruct (Prim2SF delta) as [[|]|[|]| |[|] md ed];
      destruct (Prim2SF d) as [[|]|[|]| |[|] mdd edd];
      try discriminate Hstep;
      destruct (Prim2SF s) as [[|]|[|]| |[|] ms es]; simpl; auto. }
  destruct H as [H|[Hs H]].
  - left. apply Prim2SF_inj. exact H.
  - right. split; apply Prim2SF_inj; [rewrite Hs|rewrite H]; reflexivity.
Qed.

(** Settles the integer tests of the goal that [lia] decides. *)
Ltac settle_tests :=
  repeat match goal with
  | |- context [(?a <? ?b)%Z] =>
      first [ replace (a <? b)%Z with true by (symmetry; apply Z.ltb_lt; lia)
            | replace (a <? b)%Z with false by (symmetry; apply Z.ltb_ge; lia) ]
  | |- context [(?a =? ?b)%Z] =>
      first [ replace (a =? b)%Z with true by (symmetry; apply Z.eqb_eq; lia)
            | replace (a =? b)%Z with false by (symmetry; apply Z.eqb_neq; lia) ]
  end.

Lemma set_last_map_seq (g : nat -> float) (n : nat) (stop : float) :
  (1 < n)%nat ->
  set_last (map g (seq 0 n)) stop
  = map (fun i => if (i =? n - 1)%nat then stop else g i) (seq 0 n).
Proof.
  intros Hn. unfold set_last. rewrite length_map, length_seq.
  apply list_eq. intros i.
  destruct (decide (i = pred n)) as [->|Hne].
  - rewrite list_lookup_insert_eq by (rewrite length_map, length_seq; lia).
    rewrite list_lookup_fmap, lookup_seq_lt by lia. simpl.
    replace (pred n =? n - 1)%nat with true by (symmetry; apply Nat.eqb_eq; lia).
    reflexivity.
  - rewrite list_lookup_insert_ne by congruence.
    rewrite !list_lookup_fmap.
    destruct (decide (i < n)%nat) as [Hlt|Hge].
    + rewrite lookup_seq_lt by lia. simpl.
      replace (i =? n - 1)%nat with false by (symmetry; apply Nat.eqb_neq; lia).
      reflexivity.
    + rewrite lookup_seq_ge by lia. reflexivity.
Qed.

Lemma linspace_ok (start stop : float) (num : Z) :
  (0 <= num)%Z ->
  linspace start stop num
  = Ok (map (linspace_at start stop num) (seq 0 (Z.to_nat num))).
Proof.
  intros Hnum. unfold linspace, arange. settle_tests. f_equal.
  destruct (Z_lt_le_dec 1 num) as [H1|H1]; settle_tests.
  - assert (Heqb : forall i, (i < Z.to_nat num)%nat ->
      (Z.of_nat i =? num - 1)%Z = (i =? Z.to_nat num - 1)%nat).
    { intros i Hi. destruct (i =? Z.to_nat num - 1)%nat eqn:E.
      - apply Nat.eqb_eq in E. apply Z.eqb_eq. lia.
      - apply Nat.eqb_neq in E. apply Z.eqb_neq. lia. }
    destruct ((stop - start) / float_of_Z (num - 1) =? 0)%float eqn:Hstep;
      rewrite !map_map, set_last_map_seq by lia;
      apply map_ext_in; intros i Hi; apply in_seq in Hi;
      unfold linspace_at; settle_tests;
      rewrite (Heqb i) by lia; simpl; rewrite Hstep; reflexivity.
  - rewrite !map_map. apply map_ext. intros i.
    unfold linspace_at. settle_tests. reflexivity.
Qed.

Lemma linspace_negative (start stop : float) (num : Z) :
  (num < 0)%Z ->
  exists msg, linspace start stop num = Raise (ValueError msg).
Proof.
  intros Hnum. unfold linspace. settle_tests. eexists. reflexivity.
Qed.

(** ** Facts on the grid generator *)

Section Grid_facts.

Variable str : float -> string.
Variable round : float -> Z -> float.

(** The rows of the grid over given samples, one list per [y]. *)
Let grid_row (xs : list float) (y : float) : list (string * string) :=
  map (fun x => (str (round x 7), str y)) xs.

Lemma from_to_rows_ok (x0 x1 : float) (nx : Z) (xs ys : list float)
    (acc : list (string * string)) :
  linspace x0 x1 nx = Ok xs ->
  from_to_rows str round x0 x1 nx ys acc
  = Ok (acc ++ concat (map (grid_row xs) ys)).
Proof.
  intros Hxs. revert acc.
  induction ys as [|y ys IH]; intros acc; simpl.
  - rewrite app_nil_r. reflexivity.
  - rewrite Hxs. simpl. rewrite IH, <- app_assoc. reflexivity.
Qed.

Lemma from_to_rows_raise (x0 x1 : float) (nx : Z) (e : exn) (y : float)
    (ys : list float) (acc : list (string * string)) :
  linspace x0 x1 nx = Raise e ->
  from_to_rows str round x0 x1 nx (y :: ys) acc = Raise e.
Proof. intros Hxs. simpl. rewrite Hxs. reflexivity. Qed.

Lemma length_grid_rows (xs ys : list float) :
  length (concat (map (grid_row xs) ys)) = (length ys * length xs)%nat.
Proof.
  induction ys as [|y ys IH]; simpl; [reflexivity|].
  rewrite length_app, IH. unfold grid_row. rewrite length_map. reflexivity.
Qed.

Lemma grid_rows_nil (ys : list float) : concat (map (grid_row []) ys) = [].
Proof. induction ys as [|y ys IH]; [reflexivity|exact IH]. Qed.

Lemma lookup_grid_rows (xs ys : list float) (i j : nat) (x y : float) :
  xs !! i = Some x -> ys !! j = Some y ->
  concat (map (grid_row xs) ys) !! (j * length xs + i)%nat
  = Some (str (round x 7), str y).
Proof.
  intros Hx. revert j.
  induction ys as [|y0 ys IH]; intros j Hy; [discriminate|].
  assert (Hi : (i < length xs)%nat) by (eapply lookup_lt_Some; eassumption).
  destruct j as [|j]; simpl in *.
  - rewrite lookup_app_l by (unfold grid_row; rewrite length_map; exact Hi).
    unfold grid_row. rewrite list_lookup_fmap, Hx. simpl. congruence.
  - rewrite lookup_app_r by (unfold grid_row; rewrite length_map; lia).
    unfold grid_row at 1. rewrite length_map.
    replace (length xs + j * length xs + i - length xs)%nat
      with (j * length xs + i)%nat by lia.
    apply IH. exact Hy.
Qed.

Lemma fetch_format_from_to_ok (from_coords to_coords : float * float) (nx ny : Z) :
  (0 <= nx)%Z -> (0 <= ny)%Z ->
  fetch_format_from_to str round from_coords to_coords nx ny
  = Ok (concat (map
      (grid_row (map (linspace_at from_coords.1 to_coords.1 nx) (seq 0 (Z.to_nat nx))))
      (map (linspace_at from_coords.2 to_coords.2 ny) (seq 0 (Z.to_nat ny))))).
Proof.
  intros Hnx Hny. unfold fetch_format_from_to.
  rewrite (linspace_ok _ _ ny Hny). simpl.
  rewrite (from_to_rows_ok _ _ _ _ _ _ (linspace_ok _ _ nx Hnx)).
  reflexivity.
Qed.

(** What [linspace] does on one dimension, read on its samples.
    - With two or more samples, the last one is [stop] itself.
    - A sample before the last is interpolated from [start]: the index
      times the step, plus [start]; when the step is zero (the ends are
      equal, or too close for a step of their own), the index over the
      number of steps, times the distance, plus [start].
    - The first sample is [start], when the step is finite (the distance
      does not overflow). In binary64 arithmetic a zero plus the negative
      zero may be the positive zero, so for a [start] of [-0.0] the first
      sample may be [0.0], the same number.
    - A single sample is computed from [start]:
      [0 * (stop - start) + start]. *)
Let interpolated (start stop : float) (num : Z) : Prop :=
  ((2 <= num)%Z -> linspace_at start stop num (Z.to_nat num - 1) = stop) /\
  (forall i, (Z.of_nat i < num - 1)%Z ->
     linspace_at start stop num i
     = if (linspace_step start stop num =? 0)%float
       then (float_of_Z (Z.of_nat i) / float_of_Z (num - 1) * (stop - start)
             + start)%float
       else (float_of_Z (Z.of_nat i) * linspace_step start stop num + start)%float) /\
  (is_finite (linspace_step start stop num) = true ->
   linspace_at start stop num 0 = start \/
   (start = neg_zero /\ linspace_at start stop num 0 = 0%float)) /\
  (num = 1%Z -> linspace_at start stop num 0 = (0 * (stop - start) + start)%float).

Lemma linspace_at_last (start stop : float) (num : Z) :
  (2 <= num)%Z -> linspace_at start stop num (Z.to_nat num - 1) = stop.
Proof.
  intros Hnum. unfold linspace_at. settle_tests. reflexivity.
Qed.

Lemma linspace_at_inner (start stop : float) (num : Z) (i : nat) :
  (Z.of_nat i < num - 1)%Z ->
  linspace_at start stop num i
  = if (linspace_step start stop num =? 0)%float
    then (float_of_Z (Z.of_nat i) / float_of_Z (num - 1) * (stop - start)
          + start)%float
    else (float_of_Z (Z.of_nat i) * linspace_step start stop num + start)%float.
Proof.
  intros Hi. unfold linspace_at, linspace_step. settle_tests.
  rewrite andb_false_r.
  destruct ((stop - start) / float_of_Z (num - 1) =? 0)%float; reflexivity.
Qed.

Lemma linspace_at_single (start stop : float) :
  linspace_at start stop 1 0 = (0 * (stop - start) + start)%float.
Proof. reflexivity. Qed.

Lemma linspace_at_first (start stop : float) (num : Z) :
  (1 <= num)%Z ->
  is_finite (linspace_step start stop num) = true ->
  linspace_at start stop num 0 = start \/
  (start = neg_zero /\ linspace_at start stop num 0 = 0%float).
Proof.
  intros Hnum Hfin.
  destruct (decide (num = 1%Z)) as [->|Hne].
  - rewrite linspace_at_single. apply zero_mul_add_zero. exact Hfin.
  - rewrite linspace_at_inner by (simpl; lia).
    change (float_of_Z (Z.of_nat 0)) with 0%float.
    destruct (linspace_step start stop num =? 0)%float eqn:Hstep.
    + apply zero_div_mul_add_zero.
      unfold linspace_step in Hstep.
      replace (0 <? num - 1)%Z with true in Hstep by (symmetry; apply Z.ltb_lt; lia).
      exact Hstep.
    + apply zero_mul_add_zero. exact Hfin.
Qed.

Lemma linspace_interpolated (start stop : float) (num : Z) :
  (1 <= num)%Z -> interpolated start stop num.
Proof.
  intros Hnum. split; [|split; [|split]].
  - apply linspace_at_last.
  - intros i. apply linspace_at_inner.
  - apply linspace_at_first. exact Hnum.
  - intros ->. apply linspace_at_single.
Qed.

(** C2. For [nx >= 1] and [ny >= 1] the corridor generator returns
    [nx * ny] pairs in row-major order: the entry of index [j * nx + i] is
    the text of the [i]-th horizontal sample, rounded to 7 decimals, with
    the text of the [j]-th vertical sample, and the first [nx] entries
    share the [y] of index 0. Each dimension is interpolated as
    [interpolated] says. With two or more samples both ends are among
    them: the last sample is the [to] end itself and the first one is the
    [from] end, the samples between them being interpolated from the
    [from] end. With one sample, the degenerate case, the only sample is
    the [from] end. (The first sample is the [from] end when the distance
    of the ends does not overflow, and up to the sign of a zero.) *)
Theorem fetch_format_from_to_row_major
    (from_coords to_coords : float * float) (nx ny : Z) :
  (1 <= nx)%Z -> (1 <= ny)%Z ->
  exists out,
    fetch_format_from_to str round from_coords to_coords nx ny = Ok out /\
    Z.of_nat (length out) = (nx * ny)%Z /\
    (forall i j, (i < Z.to_nat nx)%nat -> (j < Z.to_nat ny)%nat ->
       out !! (j * Z.to_nat nx + i)%nat
       = Some (str (round (linspace_at from_coords.1 to_coords.1 nx i) 7),
               str (linspace_at from_coords.2 to_coords.2 ny j))) /\
    (forall k c, (k < Z.to_nat nx)%nat -> out !! k = Some c ->
       c.2 = str (linspace_at from_coords.2 to_coords.2 ny 0)) /\
    interpolated from_coords.1 to_coords.1 nx /\
    interpolated from_coords.2 to_coords.2 ny.
Proof.
  intros Hnx Hny.
  set (xs := map (linspace_at from_coords.1 to_coords.1 nx) (seq 0 (Z.to_nat nx))).
  set (ys := map (linspace_at from_coords.2 to_coords.2 ny) (seq 0 (Z.to_nat ny))).
  assert (Hlx : length xs = Z.to_nat nx)
    by (unfold xs; rewrite length_map, length_seq; reflexivity).
  assert (Hly : length ys = Z.to_nat ny)
    by (unfold ys; rewrite length_map, length_seq; reflexivity).
  assert (Hx : forall i, (i < Z.to_nat nx)%nat ->
            xs !! i = Some (linspace_at from_coords.1 to_coords.1 nx i)).
  { intros i Hi. unfold xs. rewrite list_lookup_fmap, lookup_seq_lt by lia.
    reflexivity. }
  assert (Hy : forall j, (j < Z.to_nat ny)%nat ->
            ys !! j = Some (linspace_at from_coords.2 to_coords.2 ny j)).
  { intros j Hj. unfold ys. rewrite list_lookup_fmap, lookup_seq_lt by lia.
    reflexivity. }
  assert (Hcell : forall i j, (i < Z.to_nat nx)%nat -> (j < Z.to_nat ny)%nat ->
            concat (map (grid_row xs) ys) !! (j * Z.to_nat nx + i)%nat
            = Some (str (round (linspace_at from_coords.1 to_coords.1 nx i) 7),
                    str (linspace_at from_coords.2 to_coords.2 ny j))).
  { intros i j Hi Hj. rewrite <- Hlx.
    apply lookup_grid_rows; [apply Hx | apply Hy]; assumption. }
  exists (concat (map (grid_row xs) ys)).
  split; [apply fetch_format_from_to_ok; lia|].
  split; [rewrite length_grid_rows, Hlx, Hly; lia|].
  split; [exact Hcell|].
  split.
  { intros k c Hk Hc.
    specialize (Hcell k 0%nat Hk ltac:(lia)). simpl in Hcell.
    rewrite Hcell in Hc. injection Hc as <-. reflexivity. }
  split; apply linspace_interpolated; assumption.
Qed.

(** C8, as amended. The generator checks no argument itself. With a
    negative [ny], or a positive [ny] and a negative [nx], [linspace]
    raises [ValueError]; with [ny = 0], or a positive [ny] and [nx = 0], the
    generator returns the empty list and raises nothing. *)
Theorem fetch_format_from_to_small_counts
    (from_coords to_coords : float * float) (nx ny : Z) :
  ((ny < 0)%Z \/ ((0 < ny)%Z /\ (nx < 0)%Z) ->
     exists msg,
       fetch_format_from_to str round from_coords to_coords nx ny
       = Raise (ValueError msg)) /\
  (ny = 0%Z \/ ((0 < ny)%Z /\ nx = 0%Z) ->
     fetch_format_from_to str round from_coords to_coords nx ny = Ok []).
Proof.
  split.
  - intros [Hny|[Hny Hnx]]; unfold fetch_format_from_to.
    + destruct (linspace_negative from_coords.2 to_coords.2 ny Hny) as [msg ->].
      exists msg. reflexivity.
    + rewrite (linspace_ok _ _ ny) by lia. simpl.
      destruct (linspace_negative from_coords.1 to_coords.1 nx Hnx) as [msg Hmsg].
      exists msg.
      destruct (Z.to_nat ny) as [|n] eqn:En; [lia|].
      simpl. rewrite Hmsg. reflexivity.
  - intros [->|[Hny ->]].
    + reflexivity.
    + rewrite fetch_format_from_to_ok by lia.
      change (seq 0 (Z.to_nat 0)) with (@nil nat). simpl (map _ []).
      rewrite grid_rows_nil. reflexivity.
Qed.

End Grid_facts.

(** ** Facts on the cache *)

Section Cache_facts.

Variable str : float -> string.
Variable float_of_string : string -> option float.
Variable module_dir : string.

(** The texts of the floats [vs] parse back to them. *)
Let reads_back (vs : list float) : Prop :=
  Forall (fun v => float_of_string (str v) = Some v) vs.

Lemma load_rows_data_rows (xs ys zs x y z : list float) :
  length xs = length ys -> length ys = length zs ->
  reads_back xs -> reads_back ys -> reads_back zs ->
  load_rows float_of_string
    (data_rows str (map Some xs) (map Some ys) (map Some zs)) x y z
  = Ok (x ++ xs, y ++ ys, z ++ zs).
Proof.
  revert ys zs x y z.
  induction xs as [|a xs IH]; intros [|b ys] [|c zs] x y z Hxy Hyz Hx Hy Hz;
    try discriminate.
  - simpl. rewrite !app_nil_r. reflexivity.
  - inversion Hx as [|? ? Ha Hxs]; subst.
    inversion Hy as [|? ? Hb Hys]; subst.
    inversion Hz as [|? ? Hc Hzs]; subst.
    unfold data_rows. simpl. unfold float_at. simpl.
    rewrite Ha, Hb, Hc. simpl.
    fold (data_rows str (map Some xs) (map Some ys) (map Some zs)).
    rewrite IH by (assumption || (simpl in *; congruence)).
    rewrite <- !app_assoc. reflexivity.
Qed.

(** C5. Storing three lists of floats of one length under a name, with
    [overwrite] true, and loading that name returns the three lists, provided
    the text of every stored float parses back to it (as Python's [repr] and
    [float] do). The store succeeds whether or not a record exists. *)
Theorem store_then_load (plot_name : string) (xs ys zs : list float) (w : world) :
  length xs = length ys -> length ys = length zs ->
  Forall (fun v => float_of_string (str v) = Some v) (xs ++ ys ++ zs) ->
  exists w1,
    store_plot str module_dir (map Some xs) (map Some ys) (map Some zs)
      plot_name true w = (Ok true, w1) /\
    load_data float_of_string module_dir plot_name w1 = (Ok (Some (xs, ys, zs)), w1).
Proof.
  intros Hxy Hyz Hrt.
  apply Forall_app in Hrt as [Hx Hrt]. apply Forall_app in Hrt as [Hy Hz].
  eexists. split.
  - unfold store_plot. rewrite !length_map.
    rewrite !bool_decide_eq_true_2 by assumption. reflexivity.
  - unfold load_data. simpl. rewrite lookup_insert_eq. simpl.
    rewrite load_rows_data_rows by assumption. reflexivity.
Qed.

(** C7. With [overwrite] false, [store_plot] on a name whose file exists
    returns [False] and leaves the world, that file included, as it was. *)
Theorem store_plot_keeps_existing (X Y Z : list cell) (plot_name : string)
    (w : world) :
  is_Some (files w !! data_path module_dir plot_name) ->
  store_plot str module_dir X Y Z plot_name false w = (Ok false, w).
Proof.
  intros Hfile. unfold store_plot.
  rewrite (bool_decide_eq_true_2 _ Hfile). simpl.
  destruct (bool_decide (length X = length Y) && bool_decide (length Y = length Z));
    reflexivity.
Qed.

(** C10. When the three lists are not all of one length, [store_plot]
    returns [False] and leaves the world as it was, whatever [overwrite] is. *)
Theorem store_plot_unequal_lengths (X Y Z : list cell) (plot_name : string)
    (overwrite : bool) (w : world) :
  ~ (length X = length Y /\ length Y = length Z) ->
  store_plot str module_dir X Y Z plot_name overwrite w = (Ok false, w).
Proof.
  intros Hne. unfold store_plot.
  destruct (bool_decide (length X = length Y)) eqn:Hxy;
    destruct (bool_decide (length Y = length Z)) eqn:Hyz; simpl; try reflexivity.
  apply bool_decide_eq_true_1 in Hxy. apply bool_decide_eq_true_1 in Hyz.
  exfalso. apply Hne. split; assumption.
Qed.

(** A row that [load_rows] cannot read: fewer than three fields, or one of
    the first three is no float. *)
Let unreadable (row : list string) : Prop :=
  exists i, (i < 3)%nat /\
    match row !! i with
    | Some s => float_of_string s = None
    | None => True
    end.

Lemma load_rows_unreadable (rows : csv_file) (x y z : list float) :
  Exists unreadable rows ->
  exists e, load_rows float_of_string rows x y z = Raise e.
Proof.
  intros Hbad. revert x y z.
  induction Hbad as [row rows Hrow|row rows Hbad IH]; intros x y z; simpl.
  - destruct (float_at float_of_string row 0) as [a|e] eqn:Ha; [|eauto].
    destruct (float_at float_of_string row 1) as [b|e] eqn:Hb; [|eauto].
    destruct (float_at float_of_string row 2) as [c|e] eqn:Hc; [|eauto].
    exfalso. destruct Hrow as [i [Hi Hrow]].
    unfold float_at in Ha, Hb, Hc.
    destruct i as [|[|[|i]]]; [| | |lia];
      destruct (row !! _) as [s|]; try discriminate;
      rewrite Hrow in *; discriminate.
  - destruct (float_at float_of_string row 0) as [a|e]; [|eauto].
    destruct (float_at float_of_string row 1) as [b|e]; [|eauto].
    destruct (float_at float_of_string row 2) as [c|e]; [|eauto].
    simpl. apply IH.
Qed.

(** [load_rows] raises nothing but the [IndexError] of a missing field
    and the [ValueError] of a field that is no float. *)
Lemma load_rows_raises (rows : csv_file) (x y z : list float) (e : exn) :
  load_rows float_of_string rows x y z = Raise e ->
  e = IndexError \/ exists msg, e = ValueError msg.
Proof.
  revert x y z. induction rows as [|row rows IH]; intros x y z; simpl;
    [discriminate|].
  assert (Hat : forall i a, float_at float_of_string row i = Raise a ->
            a = IndexError \/ exists msg, a = ValueError msg).
  { intros i a. unfold float_at. destruct (row !! i) as [s|].
    - destruct (float_of_string s); [discriminate|].
      intros H. injection H as <-. right. eauto.
    - intros H. injection H as <-. left. reflexivity. }
  destruct (float_at float_of_string row 0) as [a|a] eqn:Ha;
    [|intros H; injection H as <-; apply (Hat _ _ Ha)].
  destruct (float_at float_of_string row 1) as [b|b] eqn:Hb;
    [|intros H; injection H as <-; apply (Hat _ _ Hb)].
  destruct (float_at float_of_string row 2) as [c|c] eqn:Hc;
    [|intros H; injection H as <-; apply (Hat _ _ Hc)].
  simpl. apply IH.
Qed.

(** X4. [load_data] returns [None] for a name with no file. For a file in
    which a row after the header has fewer than three fields, or a field
    that is no float, it raises [IndexError] or [ValueError] and returns no
    dataset. Either way the world is left as it was. *)
Theorem load_data_missing_or_unreadable (plot_name : string) (w : world) :
  (files w !! data_path module_dir plot_name = None ->
     load_data float_of_string module_dir plot_name w = (Ok None, w)) /\
  (forall rows,
     files w !! data_path module_dir plot_name = Some rows ->
     Exists (fun row => exists i, (i < 3)%nat /\
               match row !! i with
               | Some s => float_of_string s = None
               | None => True
               end) (tail rows) ->
     exists e,
       (e = IndexError \/ exists msg, e = ValueError msg) /\
       load_data float_of_string module_dir plot_name w = (Raise e, w)).
Proof.
  split.
  - intros Hnone. unfold load_data. rewrite Hnone. reflexivity.
  - intros rows Hrows Hbad. unfold load_data. rewrite Hrows.
    destruct (load_rows_unreadable (tail rows) [] [] [] Hbad) as [e He].
    rewrite He. exists e. split; [|reflexivity].
    apply (load_rows_raises _ _ _ _ _ He).
Qed.

(** X5. With [overwrite] true and three lists of one length, [store_plot]
    returns [True]; the file of the name then holds the header and one row
    per index, every other file is as it was, and no request is made. *)
Theorem store_plot_overwrites (X Y Z : list cell) (plot_name : string) (w : world) :
  length X = length Y -> length Y = length Z ->
  exists w',
    store_plot str module_dir X Y Z plot_name true w = (Ok true, w') /\
    files w' !! data_path module_dir plot_name
    = Some (CSV_HEADER :: data_rows str X Y Z) /\
    length (data_rows str X Y Z) = length X /\
    (forall path, path <> data_path module_dir plot_name ->
       files w' !! path = files w !! path) /\
    sent w' = sent w.
Proof.
  intros Hxy Hyz. eexists. split; [|split; [|split; [|split]]].
  - unfold store_plot. rewrite !bool_decide_eq_true_2 by assumption. reflexivity.
  - simpl. apply lookup_insert_eq.
  - unfold data_rows. rewrite length_map, !length_zip. lia.
  - intros path Hpath. simpl. apply lookup_insert_ne. congruence.
  - reflexivity.
Qed.

End Cache_facts.

(** ** Facts on the fetch *)

Section Fetch_facts.

Variable transport : list string -> string -> response.

Lemma replicate_app_cons {A : Type} (k : nat) (x : A) (l : list A) :
  replicate k x ++ x :: l = x :: replicate k x ++ l.
Proof. induction k as [|k IH]; simpl; [reflexivity|]. rewrite IH. reflexivity. Qed.

(** Every try answered by a status code: all the tries are spent, then
    [TimeoutError]. *)
Lemma get_retrying_exhausted (tries : nat) (url : string) (w : world) :
  (forall k, (k < tries)%nat ->
     exists code, transport (replicate k url ++ sent w) url = Status code) ->
  get_retrying transport tries url w
  = (Raise (TimeoutError "Server not returning data"),
     World (files w) (replicate tries url ++ sent w)).
Proof.
  revert w. induction tries as [|n IH]; intros w Hfail.
  - destruct w. reflexivity.
  - destruct (Hfail 0%nat ltac:(lia)) as [code Hcode]. simpl in Hcode.
    simpl. unfold bind, _get. rewrite Hcode.
    rewrite IH.
    + simpl. rewrite replicate_app_cons. reflexivity.
    + intros k Hk. simpl. rewrite replicate_app_cons.
      apply (Hfail (S k)). lia.
Qed.

(** [k] tries answered by a status code and the next one by a JSON object:
    [k + 1] requests, and the object's results. *)
Lemma get_retrying_answered (tries k : nat) (url : string) (results : list result)
    (w : world) :
  (k < tries)%nat ->
  (forall j, (j < k)%nat ->
     exists code, transport (replicate j url ++ sent w) url = Status code) ->
  transport (replicate k url ++ sent w) url = Dict results ->
  get_retrying transport tries url w
  = (Ok results, World (files w) (replicate (S k) url ++ sent w)).
Proof.
  revert tries w. induction k as [|k IH]; intros tries w Hk Hfail Hdict.
  - destruct tries as [|n]; [lia|]. simpl in Hdict.
    simpl. unfold bind, _get. rewrite Hdict. reflexivity.
  - destruct tries as [|n]; [lia|].
    destruct (Hfail 0%nat ltac:(lia)) as [code Hcode]. simpl in Hcode.
    simpl. unfold bind, _get. rewrite Hcode.
    rewrite (IH n) with (w := World (files w) (url :: sent w)).
    + simpl. rewrite !replicate_app_cons. reflexivity.
    + lia.
    + intros j Hj. simpl. rewrite replicate_app_cons.
      apply (Hfail (S j)). lia.
    + simpl. rewrite replicate_app_cons. exact Hdict.
Qed.

(** The progress display does not depend on the total it is given. *)
Lemma fetch_loop_total (total total' index : nat) (coords : list (string * string))
    (st : string * list result) (w : world) :
  fetch_loop transport total index coords st w
  = fetch_loop transport total' index coords st w.
Proof.
  revert index st w. induction coords as [|c coords IH]; intros index st w; simpl.
  - reflexivity.
  - unfold bind.
    change (fetch_body transport total' index c st w)
      with (fetch_body transport total index c st w).
    destruct (fetch_body transport total index c st w) as [[st'|e] w'];
      [apply IH|reflexivity].
Qed.

Lemma fetch_loop_app (total index : nat) (l1 l2 : list (string * string))
    (st : string * list result) (w : world) :
  fetch_loop transport total index (l1 ++ l2) st w
  = match fetch_loop transport total index l1 st w with
    | (Ok st', w') => fetch_loop transport total (index + length l1) l2 st' w'
    | (Raise e, w') => (Raise e, w')
    end.
Proof.
  revert index st w. induction l1 as [|c l1 IH]; intros index st w; simpl.
  - unfold ret. rewrite Nat.add_0_r. reflexivity.
  - unfold bind. destruct (fetch_body transport total index c st w) as [[st'|e] w'].
    + rewrite IH. replace (S index + length l1)%nat with (index + S (length l1))%nat by lia.
      reflexivity.
    + reflexivity.
Qed.

(** [fetch] on coordinates whose turn of index [length pre] raises. *)
Lemma fetch_raises_at (total : nat) (pre post : list (string * string))
    (coord : string * string) (st : string * list result) (e : exn)
    (w w1 w2 : world) :
  fetch_loop transport total 0 pre ("", []) w = (Ok st, w1) ->
  fetch_body transport total (length pre) coord st w1 = (Raise e, w2) ->
  fetch transport (pre ++ coord :: post) w = (Raise e, w2).
Proof.
  intros Hpre Hbody. unfold fetch, bind, printProgressBar, ret.
  rewrite (fetch_loop_total _ total), fetch_loop_app, Hpre. simpl.
  unfold bind. rewrite Hbody. reflexivity.
Qed.

(** C3. Take the coordinate that closes a batch (its index is a multiple of
    100), the loop having run without error so far (for whatever total the
    progress display is given). If each of the [RETRIES] tries for that
    batch is answered by a status code, [fetch] raises [TimeoutError] and
    returns no data; the log then holds exactly [RETRIES] more requests,
    all for that batch, and none for the coordinates that follow. *)
Theorem fetch_retries_exhausted (total : nat) (pre post : list (string * string))
    (coord : string * string) (st : string * list result) (w w1 : world) :
  (length pre mod 100 = 0)%nat ->
  fetch_loop transport total 0 pre ("", []) w = (Ok st, w1) ->
  (forall k, (k < RETRIES)%nat ->
     exists code,
       transport (replicate k (batch_request st.1 coord) ++ sent w1)
         (batch_request st.1 coord) = Status code) ->
  fetch transport (pre ++ coord :: post) w
  = (Raise (TimeoutError "Server not returning data"),
     World (files w1) (replicate RETRIES (batch_request st.1 coord) ++ sent w1)).
Proof.
  intros Hidx Hpre Hfail.
  apply (fetch_raises_at total pre post coord st _ w w1 _ Hpre).
  unfold fetch_body. rewrite Hidx. simpl (0 =? 0)%nat. cbv iota.
  unfold bind, rate_limit_wait, ret. fold (batch_request st.1 coord).
  rewrite (get_retrying_exhausted _ _ _ Hfail). reflexivity.
Qed.

(** C4. Take the coordinate that closes a batch, the loop having run
    without error so far. If, after [k < RETRIES] tries answered by a
    status code, the service answers with a JSON object in which some
    result has no elevation, [fetch] raises [ValueError] and returns no
    data, filtered or not; the log holds the [k + 1] requests up to that
    answer and no request after it. *)
Theorem fetch_missing_elevation (total : nat) (pre post : list (string * string))
    (coord : string * string) (st : string * list result) (w w1 : world)
    (k : nat) (results : list result) :
  (length pre mod 100 = 0)%nat ->
  fetch_loop transport total 0 pre ("", []) w = (Ok st, w1) ->
  (k < RETRIES)%nat ->
  (forall j, (j < k)%nat ->
     exists code,
       transport (replicate j (batch_request st.1 coord) ++ sent w1)
         (batch_request st.1 coord) = Status code) ->
  transport (replicate k (batch_request st.1 coord) ++ sent w1)
    (batch_request st.1 coord) = Dict results ->
  (exists r, r ∈ results /\ elevation r = None) ->
  fetch transport (pre ++ coord :: post) w
  = (Raise (ValueError ("API didn't like your coordinates: " +:+
              drop_last (st.1 +:+ coord.1 +:+ "," +:+ coord.2 +:+ "|"))),
     World (files w1) (replicate (S k) (batch_request st.1 coord) ++ sent w1)).
Proof.
  intros Hidx Hpre Hk Hfail Hdict [r [Hin Hnone]].
  apply (fetch_raises_at total pre post coord st _ w w1 _ Hpre).
  unfold fetch_body. rewrite Hidx. simpl (0 =? 0)%nat. cbv iota.
  unfold bind, rate_limit_wait, printProgressBar, ret.
  fold (batch_request st.1 coord).
  rewrite (get_retrying_answered _ _ _ _ _ Hk Hfail Hdict).
  replace (forallb (fun r0 => bool_decide (elevation r0 <> None)) results) with false.
  - reflexivity.
  - symmetry. apply not_true_is_false. intros Hall.
    rewrite forallb_forall in Hall.
    specialize (Hall r ltac:(apply list_elem_of_In; exact Hin)).
    apply bool_decide_eq_true_1 in Hall. contradiction.
Qed.

End Fetch_facts.

(** ** Facts on the pipeline *)

Section Pipeline_facts.

Variable str : float -> string.
Variable round : float -> Z -> float.
Variable transport : list string -> string -> response.
Variable float_of_string : string -> option float.
Variable module_dir : string.

Lemma load_data_world (plot_name : string) (w w' : world)
    (r : outcome (option (list float * list float * list float))) :
  load_data float_of_string module_dir plot_name w = (r, w') -> w' = w.
Proof.
  unfold load_data. destruct (files w !! _); intros H; injection H; auto.
Qed.

Lemma get_retrying_files (tries : nat) (url : string) (w w' : world)
    (r : outcome (list result)) :
  get_retrying transport tries url w = (r, w') -> files w' = files w.
Proof.
  revert w. induction tries as [|n IH]; intros w; simpl.
  - intros H. injection H as _ <-. reflexivity.
  - unfold bind, _get. destruct (transport (sent w) url).
    + intros H. injection H as _ <-. reflexivity.
    + intros H. apply IH in H. exact H.
Qed.

Lemma fetch_body_files (total index : nat) (coord : string * string)
    (st : string * list result) (w w' : world)
    (r : outcome (string * list result)) :
  fetch_body transport total index coord st w = (r, w') -> files w' = files w.
Proof.
  unfold fetch_body. destruct (index mod 100 =? 0)%nat.
  - unfold bind, rate_limit_wait, printProgressBar, ret.
    destruct (get_retrying transport RETRIES _ w) as [[results|e] w1] eqn:Hget;
      apply get_retrying_files in Hget.
    + destruct (forallb _ results); intros H; injection H as _ <-; exact Hget.
    + intros H. injection H as _ <-. exact Hget.
  - intros H. injection H as _ <-. reflexivity.
Qed.

Lemma fetch_loop_files (total index : nat) (coords : list (string * string))
    (st : string * list result) (w w' : world)
    (r : outcome (string * list result)) :
  fetch_loop transport total index coords st w = (r, w') -> files w' = files w.
Proof.
  revert index st w. induction coords as [|c coords IH]; intros index st w; simpl.
  - intros H. injection H as _ <-. reflexivity.
  - unfold bind.
    destruct (fetch_body transport total index c st w) as [[st'|e] w1] eqn:Hbody;
      apply fetch_body_files in Hbody.
    + intros H. apply IH in H. congruence.
    + intros H. injection H as _ <-. exact Hbody.
Qed.

Lemma fetch_files (coords : list (string * string)) (w w' : world)
    (r : outcome (list result)) :
  fetch transport coords w = (r, w') -> files w' = files w.
Proof.
  unfold fetch, bind, printProgressBar, ret.
  destruct (fetch_loop transport (length coords) 0 coords ("", []) w)
    as [[st|e] w1] eqn:Hloop;
    apply fetch_loop_files in Hloop; intros H; injection H as _ <-; exact Hloop.
Qed.

Lemma API_call_files (mode : string) (kw : kwargs) (w w' : world)
    (r : outcome (list cell * list cell * list cell)) :
  API_call str round transport mode kw w = (r, w') -> files w' = files w.
Proof.
  unfold API_call. destruct (bool_decide (mode ∈ MODES)).
  - unfold bind, lift. destruct (format_coords str round mode kw) as [coords|e].
    + destruct (fetch transport coords w) as [[response|e] w1] eqn:Hfetch;
        apply fetch_files in Hfetch; intros H; injection H as _ <-; exact Hfetch.
    + intros H. injection H as _ <-. reflexivity.
  - intros H. injection H as _ <-. reflexivity.
Qed.

Lemma plot_format_lengths (response : list result) :
  length (plot_format response).1.1 = length (plot_format response).1.2 /\
  length (plot_format response).1.2 = length (plot_format response).2.
Proof. unfold plot_format. simpl. rewrite !length_map. split; reflexivity. Qed.

(** The script does not hide a failure: on a miss, when [API_call] raises,
    the run raises the same exception, and no file has been written. *)
Theorem run_with_cache_failure (plot_name mode : string) (kw : kwargs)
    (w w1 : world) (e : exn) :
  load_data float_of_string module_dir plot_name w = (Ok None, w) ->
  API_call str round transport mode kw w = (Raise e, w1) ->
  run_with_cache str round transport float_of_string module_dir plot_name mode kw w
  = (Raise e, w1) /\ files w1 = files w.
Proof.
  intros Hload Hcall. split.
  - unfold run_with_cache, bind. rewrite Hload, Hcall. reflexivity.
  - eapply API_call_files. exact Hcall.
Qed.

(** X6. A second run loads what the first one stored. When every result of
    [response] has an elevation and the text of every stored float parses
    back to it, then in the world that [store_plot] leaves for the columns
    of [response], a run for the same name returns those columns and leaves
    the world as it is: no request is made. *)
Theorem run_with_cache_second_run (plot_name mode : string) (kw : kwargs)
    (response : list result) (w1 w2 : world) :
  Forall (fun r => elevation r <> None) response ->
  Forall (fun r =>
            float_of_string (str (lat (loc r))) = Some (lat (loc r)) /\
            float_of_string (str (lng (loc r))) = Some (lng (loc r)) /\
            forall z, elevation r = Some z -> float_of_string (str z) = Some z)
    response ->
  store_plot str module_dir (plot_format response).1.1 (plot_format response).1.2
    (plot_format response).2 plot_name true w1 = (Ok true, w2) ->
  run_with_cache str round transport float_of_string module_dir plot_name mode kw w2
  = (Ok (plot_format response), w2).
Proof.
  intros Hel Hrt Hstore.
  set (xs := map (fun r => lat (loc r)) response).
  set (ys := map (fun r => lng (loc r)) response).
  set (zs := map (fun r => default 0%float (elevation r)) response).
  assert (Hpf : plot_format response = (map Some xs, map Some ys, map Some zs)).
  { unfold plot_format, xs, ys, zs. rewrite !map_map. f_equal.
    apply map_ext_in. intros r Hr.
    rewrite Forall_forall in Hel. specialize (Hel r ltac:(apply list_elem_of_In; exact Hr)).
    destruct (elevation r); [reflexivity|contradiction]. }
  assert (Hxy : length xs = length ys)
    by (unfold xs, ys; rewrite !length_map; reflexivity).
  assert (Hyz : length ys = length zs)
    by (unfold ys, zs; rewrite !length_map; reflexivity).
  rewrite Hpf in Hstore |- *. simpl in Hstore.
  unfold store_plot in Hstore. rewrite !length_map in Hstore.
  rewrite !bool_decide_eq_true_2 in Hstore by assumption.
  simpl in Hstore. injection Hstore as <-.
  unfold run_with_cache, bind, load_data. simpl.
  rewrite lookup_insert_eq. simpl.
  rewrite (load_rows_data_rows str float_of_string).
  - reflexivity.
  - exact Hxy.
  - exact Hyz.
  - unfold xs. apply Forall_fmap. eapply Forall_impl; [exact Hrt|].
    intros r [H _]. exact H.
  - unfold ys. apply Forall_fmap. eapply Forall_impl; [exact Hrt|].
    intros r [_ [H _]]. exact H.
  - unfold zs. apply Forall_fmap.
    rewrite Forall_forall in Hel, Hrt |- *. intros r Hr.
    specialize (Hel r Hr). destruct (Hrt r Hr) as [_ [_ H]].
    simpl. destruct (elevation r) as [z|]; [apply H; reflexivity|contradiction].
Qed.

End Pipeline_facts.

(** ** The batches of a fetch *)

Section Batch_facts.

Variable transport : list string -> string -> response.

#[local] Arguments Nat.modulo : simpl never.

Lemma gathered_snoc (batch : list (string * string)) (coord : string * string) :
  gathered (batch ++ [coord])
  = gathered batch +:+ coord.1 +:+ "," +:+ coord.2 +:+ "|".
Proof. unfold gathered. rewrite fold_left_app. reflexivity. Qed.

Lemma mod_100_succ (i : nat) :
  (i mod 100 <> 0)%nat -> ((i - 1) mod 100 + 1 = i mod 100)%nat.
Proof.
  intros H. pose proof (Nat.div_mod_eq i 100).
  pose proof (Nat.mod_upper_bound i 100 ltac:(lia)).
  assert ((i mod 100 - 1) = (i - 1) mod 100)%nat as <-
    by (apply (Nat.mod_unique _ _ (i / 100)); lia).
  lia.
Qed.

(** The coordinates are the batches in order, followed by what is left
    pending: nothing for no coordinates, [(n - 1) mod 100] coordinates for
    [n > 0] of them. *)
Lemma batches_from_pending (index : nat) (coords pending : list (string * string)) :
  (index = 0%nat -> pending = []) ->
  ((0 < index)%nat -> length pending = ((index - 1) mod 100)%nat) ->
  exists rest,
    pending ++ coords = concat (batches_from index coords pending) ++ rest /\
    ((index + length coords = 0)%nat -> rest = []) /\
    ((0 < index + length coords)%nat ->
       length rest = ((index + length coords - 1) mod 100)%nat).
Proof.
  revert index pending.
  induction coords as [|c coords IH]; intros index pending H0 Hpos.
  - exists pending. simpl. rewrite app_nil_r, Nat.add_0_r.
    split; [reflexivity|]. split; [exact H0|exact Hpos].
  - simpl. destruct (index mod 100 =? 0)%nat eqn:Hmod.
    + apply Nat.eqb_eq in Hmod.
      destruct (IH (S index) []) as [rest [Hcat [_ Hlen]]].
      * discriminate.
      * intros _. replace (S index - 1)%nat with index by lia.
        rewrite Hmod. reflexivity.
      * exists rest. split; [|split].
        -- simpl in Hcat. simpl. rewrite <- app_assoc, <- Hcat.
           rewrite <- app_assoc. reflexivity.
        -- lia.
        -- intros _. replace (index + S (length coords))%nat
             with (S index + length coords)%nat by lia.
           apply Hlen. lia.
    + apply Nat.eqb_neq in Hmod.
      assert (Hi : (0 < index)%nat) by (destruct index; [contradiction Hmod; reflexivity|lia]).
      destruct (IH (S index) (pending ++ [c])) as [rest [Hcat [_ Hlen]]].
      * discriminate.
      * intros _. rewrite length_app, (Hpos Hi).
        replace (S index - 1)%nat with index by lia.
        apply mod_100_succ. exact Hmod.
      * exists rest. split; [|split].
        -- rewrite <- Hcat, <- app_assoc. reflexivity.
        -- lia.
        -- intros _. replace (index + S (length coords))%nat
             with (S index + length coords)%nat by lia.
           apply Hlen. lia.
Qed.

(** The coordinates [fetch] requests: all but the last [(n - 1) mod 100]. *)
Lemma batches_from_take (coords : list (string * string)) :
  concat (batches_from 0 coords [])
  = take (length coords - (length coords - 1) mod 100) coords.
Proof.
  destruct (batches_from_pending 0 coords []) as [rest [Hcat [Hnil Hlen]]];
    [reflexivity | lia |].
  rewrite app_nil_l, Nat.add_0_l in *.
  remember (concat (batches_from 0 coords [])) as sent_coords eqn:Hsent.
  clear Hsent.
  assert (Hl : length coords = (length sent_coords + length rest)%nat)
    by (rewrite Hcat; apply length_app).
  destruct (decide (length coords = 0%nat)) as [Hz|Hnz].
  - rewrite (Hnil Hz), app_nil_r in Hcat. subst coords.
    rewrite Hz. destruct sent_coords; [reflexivity|discriminate].
  - specialize (Hlen ltac:(lia)).
    replace (length coords - (length coords - 1) mod 100)%nat
      with (length sent_coords) by lia.
    rewrite Hcat, take_app_length. reflexivity.
Qed.

Variable answer : string * string -> result.

(** The service answers the batch [b] in full, whatever was requested
    before. *)
Let answered (b : list (string * string)) : Prop :=
  forall earlier, transport earlier (batch_url b) = Dict (map answer b).

Lemma fetch_loop_answered (total index : nat)
    (coords pending : list (string * string)) (data : list result) (w : world) :
  (forall c, c ∈ coords -> elevation (answer c) <> None) ->
  (forall c, c ∈ pending -> elevation (answer c) <> None) ->
  Forall answered (batches_from index coords pending) ->
  exists coords_url,
    fetch_loop transport total index coords (gathered pending, data) w
    = (Ok (coords_url,
           data ++ map answer (concat (batches_from index coords pending))),
       World (files w)
         (rev (map batch_url (batches_from index coords pending)) ++ sent w)).
Proof.
  revert index pending data w.
  induction coords as [|c coords IH]; intros index pending data w Hc Hp Hall.
  - simpl. rewrite app_nil_r. destruct w. eexists. reflexivity.
  - simpl in Hall |- *. unfold bind, fetch_body.
    destruct (index mod 100 =? 0)%nat eqn:Hmod.
    + inversion Hall as [|b bs Hb Hbs]; subst.
      cbn [fst snd]. rewrite <- gathered_snoc.
      unfold bind, rate_limit_wait, printProgressBar, ret.
      fold (batch_url (pending ++ [c])).
      rewrite (get_retrying_answered transport RETRIES 0 _ (map answer (pending ++ [c])));
        [ | unfold RETRIES; lia | intros j Hj; lia | apply Hb ].
      replace (forallb (fun r => bool_decide (elevation r <> None))
                 (map answer (pending ++ [c]))) with true.
      * unfold ret.
        destruct (IH (S index) [] (data ++ map answer (pending ++ [c]))
                    (World (files w)
                       (replicate 1 (batch_url (pending ++ [c])) ++ sent w)))
          as [url' Hloop].
        -- intros c' Hc'. apply Hc. right. exact Hc'.
        -- intros c' Hc'. inversion Hc'.
        -- exact Hbs.
        -- change (gathered []) with "" in Hloop. rewrite Hloop.
           exists url'. simpl. rewrite !map_app, <- !app_assoc. reflexivity.
      * symmetry. apply forallb_forall. intros r Hr.
        apply in_map_iff in Hr as [c' [<- Hc']].
        apply bool_decide_eq_true_2.
        apply in_app_iff in Hc' as [Hc'|[->|[]]].
        -- apply Hp. apply list_elem_of_In. exact Hc'.
        -- apply Hc. left.
    + cbn [fst snd]. rewrite <- gathered_snoc. unfold ret.
      apply IH.
      * intros c' Hc'. apply Hc. right. exact Hc'.
      * intros c' Hc'. apply elem_of_app in Hc' as [Hc'|Hc'].
        -- apply Hp. exact Hc'.
        -- apply list_elem_of_singleton in Hc' as ->. apply Hc. left.
      * exact Hall.
Qed.

Lemma fetch_answered (coords : list (string * string)) (w : world) :
  (forall c, c ∈ coords -> elevation (answer c) <> None) ->
  Forall answered (batches_from 0 coords []) ->
  fetch transport coords w
  = (Ok (map answer (take (length coords - (length coords - 1) mod 100) coords)),
     World (files w) (rev (map batch_url (batches_from 0 coords [])) ++ sent w)).
Proof.
  intros Hc Hall.
  destruct (fetch_loop_answered (length coords) 0 coords [] [] w Hc)
    as [url' Hloop].
  - intros c' Hc'. inversion Hc'.
  - exact Hall.
  - unfold fetch, bind, printProgressBar, ret.
    change (gathered []) with "" in Hloop. rewrite Hloop.
    simpl. rewrite batches_from_take. reflexivity.
Qed.

(** X1. When the service answers every batch in full and with elevations,
    [fetch] returns the answers to the coordinates it requested, in their
    order: all the coordinates but the last [(n - 1) mod 100], which it
    never requests. The log gains one request per batch, in order. *)
Theorem fetch_answers_requested (coords : list (string * string)) (w : world) :
  (forall c, c ∈ coords -> elevation (answer c) <> None) ->
  Forall (fun b => forall earlier, transport earlier (batch_url b) = Dict (map answer b))
    (batches_from 0 coords []) ->
  fetch transport coords w
  = (Ok (map answer (take (length coords - (length coords - 1) mod 100) coords)),
     World (files w) (rev (map batch_url (batches_from 0 coords [])) ++ sent w)).
Proof. exact (fetch_answered coords w). Qed.

End Batch_facts.

(** ** The run of the script *)

Section Run_pipeline.

Variable str : float -> string.
Variable round : float -> Z -> float.
Variable transport : list string -> string -> response.
Variable float_of_string : string -> option float.
Variable module_dir : string.
Variable answer : string * string -> result.

#[local] Arguments Nat.modulo : simpl never.

(** C6. A run of the script for a plot name.
    - Hit: when [load_data] returns a dataset, the run returns that
      dataset and leaves the world as it was: no request is logged and no
      file is written.
    - Miss: when [load_data] returns [None], the mode is a known one, the
      generator of that mode returns the grid [coords], and the service
      answers every batch of the grid in full and with elevations, the run
      requests the batches of the grid, in order and once each, and stores
      under the name and returns the three columns of the answers to the
      coordinates it asked for. Those are not the grid: they are its first
      [n - (n - 1) mod 100] coordinates of [n]; for the rest of the grid no
      elevation is fetched, stored or returned. *)
Theorem run_with_cache_hit_or_miss (plot_name mode : string) (kw : kwargs)
    (w : world) :
  (forall x y z w',
     load_data float_of_string module_dir plot_name w = (Ok (Some (x, y, z)), w') ->
     run_with_cache str round transport float_of_string module_dir plot_name mode kw w
     = (Ok (map Some x, map Some y, map Some z), w)) /\
  (forall coords,
     load_data float_of_string module_dir plot_name w = (Ok None, w) ->
     mode ∈ MODES ->
     format_coords str round mode kw = Ok coords ->
     (forall c, c ∈ coords -> elevation (answer c) <> None) ->
     Forall (fun b => forall earlier,
               transport earlier (batch_url b) = Dict (map answer b))
       (batches_from 0 coords []) ->
     let asked := take (length coords - (length coords - 1) mod 100) coords in
     let X := map (fun c => Some (lat (loc (answer c)))) asked in
     let Y := map (fun c => Some (lng (loc (answer c)))) asked in
     let Z := map (fun c => elevation (answer c)) asked in
     run_with_cache str round transport float_of_string module_dir plot_name mode kw w
     = (Ok (X, Y, Z),
        World (<[data_path module_dir plot_name := CSV_HEADER :: data_rows str X Y Z]>
                 (files w))
          (rev (map batch_url (batches_from 0 coords [])) ++ sent w)) /\
     length asked = (length coords - (length coords - 1) mod 100)%nat).
Proof.
  split.
  - intros x y z w' Hload.
    pose proof (load_data_world _ _ _ _ _ _ Hload) as ->.
    unfold run_with_cache, bind. rewrite Hload. reflexivity.
  - intros coords Hload Hmode Hgrid Hc Hall asked X Y Z. split.
    + pose proof (fetch_answered transport answer coords w Hc Hall) as Hfetch.
      unfold run_with_cache, bind. rewrite Hload.
      unfold API_call. rewrite bool_decide_eq_true_2 by exact Hmode.
      unfold bind, lift. rewrite Hgrid, Hfetch. unfold ret, plot_format.
      rewrite !map_map. fold asked. cbn beta. fold X Y Z.
      unfold store_plot.
      rewrite !bool_decide_eq_true_2
        by (unfold X, Y, Z; rewrite !length_map; reflexivity).
      reflexivity.
    + unfold asked. rewrite length_take. lia.
Qed.

End Run_pipeline.

(** ** The script on its own arguments *)

Section Main_facts.

Variable str : float -> string.
Variable round : float -> Z -> float.
Variable transport : list string -> string -> response.
Variable float_of_string : string -> option float.
Variable module_dir : string.
Variable answer : string * string -> result.

#[local] Arguments Nat.modulo : simpl never.

(** One batch per index that is a multiple of 100. *)
Lemma length_batches_from (index : nat) (coords pending : list (string * string)) :
  length (batches_from index coords pending)
  = length (filter (fun i => (i mod 100 = 0)%nat) (seq index (length coords))).
Proof.
  revert index pending. induction coords as [|c coords IH]; intros index pending.
  - reflexivity.
  - simpl. rewrite filter_cons.
    destruct (index mod 100 =? 0)%nat eqn:Hmod.
    + apply Nat.eqb_eq in Hmod. rewrite decide_True by exact Hmod.
      simpl. rewrite IH. reflexivity.
    + apply Nat.eqb_neq in Hmod. rewrite decide_False by exact Hmod.
      apply IH.
Qed.

(** The centred mode, all of its keyword arguments given. *)
Lemma format_coords_around (a b : option (float * float)) (c : float * float)
    (nx ny : Z) (wd ht : float) :
  format_coords str round "around"
    (Kwargs a b (Some c) (Some nx) (Some ny) (Some wd) (Some ht))
  = fetch_format_around str round c nx ny wd ht.
Proof. reflexivity. Qed.

Lemma main_grid_length (coords : list (string * string)) :
  format_coords str round "around" main_kwargs = Ok coords ->
  length coords = 2500%nat.
Proof.
  unfold main_kwargs. rewrite format_coords_around.
  unfold fetch_format_around.
  rewrite fetch_format_from_to_ok by lia.
  intros H. apply Ok_inj in H. rewrite <- H.
  rewrite length_grid_rows, !length_map, !length_seq. reflexivity.
Qed.

(** X3. A run of [main.py] on a miss, with a service that answers every
    batch in full: the grid has 2500 coordinates, the run makes 25
    requests, and the three columns it stores and returns have 2401 entries
    each; the last 99 coordinates of the grid are never requested. *)
Theorem main_stores_2401_points (coords : list (string * string)) (w : world) :
  load_data float_of_string module_dir "mt_st_helens" w = (Ok None, w) ->
  format_coords str round "around" main_kwargs = Ok coords ->
  (forall c, c ∈ coords -> elevation (answer c) <> None) ->
  Forall (fun b => forall earlier, transport earlier (batch_url b) = Dict (map answer b))
    (batches_from 0 coords []) ->
  length coords = 2500%nat /\
  exists X Y Z w2,
    main str round transport float_of_string module_dir w = (Ok (X, Y, Z), w2) /\
    length X = 2401%nat /\ length Y = 2401%nat /\ length Z = 2401%nat /\
    length (sent w2) = (25 + length (sent w))%nat /\
    files w2 !! data_path module_dir "mt_st_helens"
    = Some (CSV_HEADER :: data_rows str X Y Z).
Proof.
  intros Hload Hgrid Hc Hall.
  pose proof (main_grid_length coords Hgrid) as Hlen.
  split; [exact Hlen|].
  pose proof (fetch_answered transport answer coords w Hc Hall) as Hfetch.
  rewrite Hlen in Hfetch.
  change (2500 - (2500 - 1) mod 100)%nat with 2401%nat in Hfetch.
  set (data := map answer (take 2401 coords)) in *.
  assert (Hdata : length data = 2401%nat).
  { unfold data. rewrite length_map, length_take. lia. }
  exists (map (fun r => Some (lat (loc r))) data),
         (map (fun r => Some (lng (loc r))) data),
         (map (fun r => elevation r) data).
  eexists. split; [|split; [|split; [|split; [|split]]]].
  - unfold main, run_with_cache, bind. rewrite Hload.
    unfold API_call. simpl (bool_decide _). cbv iota.
    unfold bind, lift. rewrite Hgrid, Hfetch. unfold ret, plot_format.
    unfold store_plot. rewrite !length_map.
    rewrite !bool_decide_eq_true_2 by reflexivity. reflexivity.
  - rewrite length_map. exact Hdata.
  - rewrite length_map. exact Hdata.
  - rewrite length_map. exact Hdata.
  - simpl. rewrite length_app, length_rev, length_map, length_batches_from, Hlen.
    reflexivity.
  - simpl. apply lookup_insert_eq.
Qed.

End Main_facts.

(** ** Facts on texts *)

Lemma string_app_cons (a : ascii) (s t : string) :
  String a s +:+ t = String a (s +:+ t).
Proof. reflexivity. Qed.

Lemma string_app_nil_r (s : string) : s +:+ "" = s.
Proof. induction s as [|a s IH]; [reflexivity|]. rewrite string_app_cons, IH. reflexivity. Qed.

Lemma string_app_assoc (s t u : string) : (s +:+ t) +:+ u = s +:+ t +:+ u.
Proof.
  induction s as [|a s IH]; [reflexivity|].
  rewrite !string_app_cons, IH. reflexivity.
Qed.

Lemma string_length_app (s t : string) :
  String.length (s +:+ t) = (String.length s + String.length t)%nat.
Proof.
  induction s as [|a s IH]; [reflexivity|].
  rewrite string_app_cons. simpl. rewrite IH. reflexivity.
Qed.

(** A text is cut back by taking as many characters as it has. *)
Lemma substring_app_length (s t : string) :
  String.substring 0 (String.length s) (s +:+ t) = s.
Proof.
  induction s as [|a s IH].
  - destruct t; reflexivity.
  - rewrite string_app_cons. simpl. rewrite IH. reflexivity.
Qed.

(** [(s + "|")[:-1]] is [s]. *)
Lemma drop_last_bar (s : string) : drop_last (s +:+ "|") = s.
Proof.
  unfold drop_last. rewrite string_length_app. simpl.
  replace (String.length s + 1 - 1)%nat with (String.length s) by lia.
  apply substring_app_length.
Qed.

(** The text gathered for a batch is its coordinates as [x,y], each
    followed by a bar. *)
Lemma gathered_cons (c : string * string) (b : list (string * string)) :
  gathered (c :: b) = pair_text c +:+ "|" +:+ gathered b.
Proof.
  unfold gathered. simpl.
  assert (H : forall l acc,
    fold_left (fun url coord => url +:+ fst coord +:+ "," +:+ snd coord +:+ "|") l acc
    = acc +:+ fold_left (fun url coord => url +:+ fst coord +:+ "," +:+ snd coord +:+ "|") l "").
  { induction l as [|x l IH]; intros acc; simpl.
    - rewrite string_app_nil_r. reflexivity.
    - rewrite (IH (acc +:+ _)), (IH ("" +:+ _)).
      rewrite string_app_assoc. reflexivity. }
  rewrite H. unfold pair_text. change ("" +:+ ?x) with x.
  rewrite !string_app_assoc. reflexivity.
Qed.

Lemma gathered_joined (b : list (string * string)) :
  b <> [] ->
  gathered b = String.concat "|" (map pair_text b) +:+ "|".
Proof.
  induction b as [|c b IH]; [contradiction|]. intros _.
  rewrite gathered_cons. destruct b as [|c' b].
  - reflexivity.
  - rewrite IH by discriminate. simpl (String.concat _ _).
    rewrite !string_app_assoc. reflexivity.
Qed.

(** The URL of a batch: the base URL, then the coordinates as [x,y] joined
    by bars. *)
Lemma batch_url_joined (b : list (string * string)) :
  b <> [] ->
  batch_url b = BASE_URL +:+ String.concat "|" (map pair_text b).
Proof.
  intros Hb. unfold batch_url. rewrite (gathered_joined b Hb), drop_last_bar.
  reflexivity.
Qed.

(** ** The shape of the batches *)

Section Batch_shape.

#[local] Arguments Nat.modulo : simpl never.
#[local] Arguments Nat.div : simpl never.

(** Every batch is a run of consecutive coordinates. *)
Lemma batches_from_slices (index : nat) (coords pending b : list (string * string)) :
  b ∈ batches_from index coords pending ->
  exists before after, pending ++ coords = before ++ b ++ after.
Proof.
  revert index pending. induction coords as [|c coords IH]; intros index pending Hb.
  - inversion Hb.
  - simpl in Hb. destruct (index mod 100 =? 0)%nat.
    + apply elem_of_cons in Hb as [->|Hb].
      * exists [], coords. simpl. rewrite <- app_assoc. reflexivity.
      * destruct (IH _ _ Hb) as [before [after Heq]]. simpl in Heq.
        exists (pending ++ c :: before), after.
        rewrite Heq, <- app_assoc. reflexivity.
    + destruct (IH _ _ Hb) as [before [after Heq]].
      exists before, after. rewrite <- Heq, <- app_assoc. reflexivity.
Qed.

(** A batch holds between 1 and 100 coordinates. *)
Lemma batches_from_sizes (index : nat) (coords pending : list (string * string)) :
  (index = 0%nat -> pending = []) ->
  ((0 < index)%nat -> length pending = ((index - 1) mod 100)%nat) ->
  Forall (fun b => (1 <= length b <= 100)%nat) (batches_from index coords pending).
Proof.
  revert index pending.
  induction coords as [|c coords IH]; intros index pending H0 Hpos; simpl.
  - constructor.
  - destruct (index mod 100 =? 0)%nat eqn:Hmod.
    + apply Nat.eqb_eq in Hmod. constructor.
      * rewrite length_app. simpl.
        destruct index as [|i].
        -- rewrite (H0 eq_refl). simpl. lia.
        -- rewrite (Hpos ltac:(lia)).
           pose proof (Nat.mod_upper_bound (S i - 1) 100 ltac:(lia)). lia.
      * apply IH; [discriminate|].
        intros _. replace (S index - 1)%nat with index by lia.
        rewrite Hmod. reflexivity.
    + apply Nat.eqb_neq in Hmod.
      assert (Hi : (0 < index)%nat)
        by (destruct index; [contradiction Hmod; reflexivity|lia]).
      apply IH; [discriminate|].
      intros _. rewrite length_app, (Hpos Hi).
      replace (S index - 1)%nat with index by lia.
      apply mod_100_succ. exact Hmod.
Qed.

Lemma div_100_succ (i : nat) :
  ((S i + 99) / 100 = (i + 99) / 100 + (if (i mod 100 =? 0)%nat then 1 else 0))%nat.
Proof.
  pose proof (Nat.div_mod_eq i 100) as Hi.
  pose proof (Nat.mod_upper_bound i 100 ltac:(lia)) as Hr.
  destruct (i mod 100 =? 0)%nat eqn:Hmod.
  - apply Nat.eqb_eq in Hmod.
    assert (((i + 99) / 100 = i / 100)%nat) as ->
      by (symmetry; apply (Nat.div_unique _ _ _ 99); lia).
    symmetry. apply (Nat.div_unique _ _ _ 0); lia.
  - apply Nat.eqb_neq in Hmod.
    assert (((i + 99) / 100 = i / 100 + 1)%nat) as ->
      by (symmetry; apply (Nat.div_unique _ _ _ (i mod 100 - 1)); lia).
    rewrite Nat.add_0_r.
    symmetry. apply (Nat.div_unique _ _ _ (i mod 100)); lia.
Qed.

(** The number of batches from [index] on. *)
Lemma length_batches_from_div (index : nat) (coords pending : list (string * string)) :
  (length (batches_from index coords pending) + (index + 99) / 100
   = (index + length coords + 99) / 100)%nat.
Proof.
  revert index pending. induction coords as [|c coords IH]; intros index pending.
  - simpl. rewrite Nat.add_0_r. reflexivity.
  - simpl. pose proof (div_100_succ index) as Hs.
    destruct (index mod 100 =? 0)%nat.
    + simpl. specialize (IH (S index) []).
      replace (index + S (length coords))%nat with (S index + length coords)%nat by lia.
      lia.
    + specialize (IH (S index) (pending ++ [c])).
      replace (index + S (length coords))%nat with (S index + length coords)%nat by lia.
      lia.
Qed.

(** [ceil(n / 100)] batches for [n] coordinates. *)
Lemma length_batches (coords : list (string * string)) :
  length (batches_from 0 coords []) = ((length coords + 99) / 100)%nat.
Proof.
  pose proof (length_batches_from_div 0 coords []) as H.
  change ((0 + 99) / 100)%nat with 0%nat in H. simpl in H. lia.
Qed.

End Batch_shape.

(** ** What a fetch can do *)

Section Fetch_outcome.

Variable transport : list string -> string -> response.

#[local] Arguments Nat.modulo : simpl never.

(** The retry loop, whatever the service answers: at most [tries] requests,
    all for [url]; when it raises, it is [TimeoutError] after [tries]
    requests. *)
Lemma get_retrying_log (tries : nat) (url : string) (w w' : world)
    (r : outcome (list result)) :
  get_retrying transport tries url w = (r, w') ->
  exists k, (k <= tries)%nat /\
    w' = World (files w) (replicate k url ++ sent w) /\
    match r with
    | Ok _ => True
    | Raise e => e = TimeoutError "Server not returning data"
    end.
Proof.
  revert w. induction tries as [|n IH]; intros w; simpl.
  - intros H. injection H as <- <-. exists 0%nat. destruct w. auto.
  - unfold bind, _get. destruct (transport (sent w) url) as [results|code].
    + intros H. injection H as <- <-. exists 1%nat. split; [lia|]. auto.
    + intros H. destruct (IH _ H) as [k [Hk [-> Hr]]].
      exists (S k). split; [lia|]. split; [|exact Hr].
      simpl. rewrite replicate_app_cons. reflexivity.
Qed.

(** The two ways in which a fetch over the batches [bs] can fail. *)
Let fails_on (bs : list (list (string * string))) (e : exn) : Prop :=
  e = TimeoutError "Server not returning data" \/
  exists b, b ∈ bs /\
    e = ValueError ("API didn't like your coordinates: " +:+ drop_last (gathered b)).

Let complete (data : list result) : Prop :=
  Forall (fun r => elevation r <> None) data.

Lemma fetch_loop_outcome (total index : nat)
    (coords pending : list (string * string)) (data : list result)
    (w w' : world) (r : outcome (string * list result)) :
  complete data ->
  fetch_loop transport total index coords (gathered pending, data) w = (r, w') ->
  files w' = files w /\
  (exists new, sent w' = new ++ sent w /\
     (length new <= RETRIES * length (batches_from index coords pending))%nat /\
     Forall (fun url => exists b,
               b ∈ batches_from index coords pending /\ url = batch_url b) new) /\
  match r with
  | Ok st => complete st.2
  | Raise e => fails_on (batches_from index coords pending) e
  end.
Proof.
  revert index pending data w.
  induction coords as [|c coords IH]; intros index pending data w Hdata; simpl.
  - intros H. injection H as <- <-. split; [reflexivity|]. split; [|exact Hdata].
    exists []. split; [reflexivity|]. split; [simpl; lia|constructor].
  - unfold bind at 1. unfold fetch_body. cbn [fst snd].
    rewrite <- gathered_snoc.
    destruct (index mod 100 =? 0)%nat.
    + unfold bind, rate_limit_wait, printProgressBar, ret.
      fold (batch_url (pending ++ [c])).
      destruct (get_retrying transport RETRIES (batch_url (pending ++ [c])) w)
        as [[results|e] w1] eqn:Hget;
        destruct (get_retrying_log _ _ _ _ _ Hget) as [k [Hk [-> He]]].
      * destruct (forallb (fun r0 => bool_decide (elevation r0 <> None)) results)
          eqn:Hall.
        -- intros H.
           assert (Hdata' : complete (data ++ results)).
           { apply Forall_app. split; [exact Hdata|].
             apply Forall_forall. intros r0 Hr0.
             rewrite forallb_forall in Hall.
             specialize (Hall r0 ltac:(apply list_elem_of_In; exact Hr0)).
             apply bool_decide_eq_true_1 in Hall. exact Hall. }
           change "" with (gathered []) in H.
           destruct (IH _ _ _ _ Hdata' H) as [Hf [[new [Hs [Hl Hu]]] Hr]].
           split; [exact Hf|]. split.
           ++ exists (new ++ replicate k (batch_url (pending ++ [c]))).
              split; [rewrite Hs; simpl; rewrite <- app_assoc; reflexivity|].
              split.
              ** rewrite length_app, length_replicate. unfold RETRIES in *. simpl length. lia.
              ** apply Forall_app. split.
                 --- eapply Forall_impl; [exact Hu|].
                     intros url [b [Hb ->]]. exists b. split; [right; exact Hb|reflexivity].
                 --- apply Forall_forall. intros url Hurl.
                     apply elem_of_replicate in Hurl as [-> _].
                     exists (pending ++ [c]). split; [left|reflexivity].
           ++ destruct r as [st|e]; [exact Hr|].
              destruct Hr as [->|[b [Hb ->]]]; [left; reflexivity|].
              right. exists b. split; [right; exact Hb|reflexivity].
        -- intros H. injection H as <- <-. split; [reflexivity|]. split.
           ++ exists (replicate k (batch_url (pending ++ [c]))).
              split; [reflexivity|]. split.
              ** rewrite length_replicate. unfold RETRIES in *. simpl length. lia.
              ** apply Forall_forall. intros url Hurl.
                 apply elem_of_replicate in Hurl as [-> _].
                 exists (pending ++ [c]). split; [left|reflexivity].
           ++ right. exists (pending ++ [c]). split; [left|reflexivity].
      * intros H. injection H as <- <-. split; [reflexivity|]. split.
        -- exists (replicate k (batch_url (pending ++ [c]))).
           split; [reflexivity|]. split.
           ++ rewrite length_replicate. unfold RETRIES in *. simpl length. lia.
           ++ apply Forall_forall. intros url Hurl.
              apply elem_of_replicate in Hurl as [-> _].
              exists (pending ++ [c]). split; [left|reflexivity].
        -- left. exact He.
    + unfold ret. intros H. apply (IH _ _ _ _ Hdata H).
Qed.

End Fetch_outcome.

(** ** What [fetch] returns and requests *)

Section Fetch_safety.

Variable transport : list string -> string -> response.

#[local] Arguments Nat.modulo : simpl never.
#[local] Arguments Nat.div : simpl never.

(** A batch of [coords]: a run of 1 to 100 consecutive coordinates. *)
Let batch_of (coords b : list (string * string)) : Prop :=
  (exists before after, coords = before ++ b ++ after) /\
  (1 <= length b <= 100)%nat.

Lemma batches_are_batches (coords b : list (string * string)) :
  b ∈ batches_from 0 coords [] -> batch_of coords b.
Proof.
  intros Hb. split.
  - apply (batches_from_slices 0 coords [] b Hb).
  - pose proof (batches_from_sizes 0 coords [] ltac:(reflexivity) ltac:(lia)) as Hs.
    rewrite Forall_forall in Hs. apply Hs. exact Hb.
Qed.

Lemma fetch_unfold (coords : list (string * string)) (w : world) :
  fetch transport coords w
  = match fetch_loop transport (length coords) 0 coords (gathered [], []) w with
    | (Ok st, w') => (Ok st.2, w')
    | (Raise e, w') => (Raise e, w')
    end.
Proof. reflexivity. Qed.

(** X7. What [fetch] returns on a non-empty list of coordinates, when
    every answer is of one of the two kinds of [response]: a status code
    other than 200, or a JSON object that has [results] with [location]
    and [elevation] in every entry. (A request that raises, or a 200 answer
    of another shape, is outside the model.) When [fetch] returns data,
    every result in it has an elevation. When it raises, it is [TimeoutError] (the tries for a batch
    are spent) or the [ValueError] that names a batch of the coordinates: 1
    to 100 consecutive coordinates as [x,y] joined by bars. (On the empty
    list the loop does not run, and what is left is the progress bar.) *)
Theorem fetch_outcome (coords : list (string * string)) (w : world) :
  coords <> [] ->
  match fetch transport coords w with
  | (Ok data, _) => Forall (fun r => elevation r <> None) data
  | (Raise e, _) =>
      e = TimeoutError "Server not returning data" \/
      exists before b after,
        coords = before ++ b ++ after /\ (1 <= length b <= 100)%nat /\
        e = ValueError ("API didn't like your coordinates: " +:+
                        String.concat "|" (map pair_text b))
  end.
Proof.
  intros _. rewrite fetch_unfold.
  destruct (fetch_loop transport (length coords) 0 coords (gathered [], []) w)
    as [r w'] eqn:Hloop.
  destruct (fetch_loop_outcome transport _ _ _ _ _ _ _ _ (List.Forall_nil _) Hloop)
    as [_ [_ Hr]].
  destruct r as [st|e]; [exact Hr|].
  destruct Hr as [->|[b [Hb ->]]]; [left; reflexivity|].
  right. destruct (batches_are_batches coords b Hb) as [[before [after Heq]] Hlen].
  exists before, b, after. split; [exact Heq|]. split; [exact Hlen|].
  rewrite gathered_joined, drop_last_bar; [reflexivity|].
  intros ->. simpl in Hlen. lia.
Qed.

Lemma rev_replicate {A : Type} (k : nat) (x : A) : rev (replicate k x) = replicate k x.
Proof.
  induction k as [|k IH]; [reflexivity|].
  simpl. rewrite IH. rewrite (replicate_app_cons k x []), app_nil_r. reflexivity.
Qed.

(** With a try to spend, the retry loop makes between one request and as
    many as it has tries, all of them for [url]. *)
Lemma get_retrying_count (tries : nat) (url : string) (w w' : world)
    (r : outcome (list result)) :
  get_retrying transport (S tries) url w = (r, w') ->
  exists k, (1 <= k <= S tries)%nat /\
    w' = World (files w) (replicate k url ++ sent w).
Proof.
  simpl. unfold bind, _get. destruct (transport (sent w) url) as [results|code].
  - intros H. injection H as _ <-. exists 1%nat. split; [lia|reflexivity].
  - intros H. destruct (get_retrying_log transport _ _ _ _ _ H) as [k [Hk [-> _]]].
    exists (S k). split; [lia|]. simpl. rewrite replicate_app_cons. reflexivity.
Qed.

(** The URLs of batches with the number of requests made for each, the
    first batch first. *)
Let urls (asked : list (list (string * string) * nat)) : list string :=
  concat (map (fun bk => replicate bk.2 (batch_url bk.1)) asked).

(** The requests of the loop, batch by batch: the batches are asked in
    order, each between one and [RETRIES] times, up to the batch on which
    the loop stops. *)
Lemma fetch_loop_asked (total index : nat)
    (coords pending : list (string * string)) (data : list result)
    (w w' : world) (r : outcome (string * list result)) :
  fetch_loop transport total index coords (gathered pending, data) w = (r, w') ->
  exists asked,
    sent w' = rev (urls asked) ++ sent w /\
    map fst asked `prefix_of` batches_from index coords pending /\
    Forall (fun bk => (1 <= bk.2 <= RETRIES)%nat) asked.
Proof.
  revert index pending data w.
  induction coords as [|c coords IH]; intros index pending data w; simpl.
  - intros H. injection H as _ <-. exists []. split; [reflexivity|].
    split; [apply prefix_nil|constructor].
  - unfold bind at 1. unfold fetch_body. cbn [fst snd].
    rewrite <- gathered_snoc.
    destruct (index mod 100 =? 0)%nat.
    + unfold bind, rate_limit_wait, printProgressBar, ret.
      fold (batch_url (pending ++ [c])).
      destruct (get_retrying transport RETRIES (batch_url (pending ++ [c])) w)
        as [r1 w1] eqn:Hget.
      destruct (get_retrying_count _ _ _ _ _ Hget) as [k [Hk ->]].
      assert (Hstop : exists asked,
                replicate k (batch_url (pending ++ [c])) ++ sent w
                = rev (urls asked) ++ sent w /\
                map fst asked `prefix_of`
                  (pending ++ [c]) :: batches_from (S index) coords [] /\
                Forall (fun bk => (1 <= bk.2 <= RETRIES)%nat) asked).
      { exists [(pending ++ [c], k)]. unfold urls. simpl.
        rewrite app_nil_r, rev_replicate. split; [reflexivity|].
        split; [apply prefix_cons, prefix_nil|].
        constructor; [exact Hk|constructor]. }
      destruct r1 as [results|e].
      * destruct (forallb _ results).
        -- intros H. change "" with (gathered []) in H.
           destruct (IH _ _ _ _ H) as [asked [Hs [Hp Hc]]].
           exists ((pending ++ [c], k) :: asked). split; [|split].
           ++ rewrite Hs. unfold urls. simpl.
              rewrite rev_app_distr, rev_replicate, <- app_assoc. reflexivity.
           ++ simpl. apply prefix_cons. exact Hp.
           ++ constructor; [exact Hk|exact Hc].
        -- intros H. injection H as _ <-. exact Hstop.
      * intros H. injection H as _ <-. exact Hstop.
    + unfold ret. intros H. apply (IH _ _ _ _ H).
Qed.

(** X8. What [fetch] asks of the service, whatever it answers with (a
    status code or a JSON object). The files are left as they were. The
    log gains the requests of the run and nothing else: the batches of the
    coordinates are asked in their order, up to the batch on which the run
    ends, each of them between one and [RETRIES] times in a row. There are
    at most [ceil(n / 100)] batches for [n] coordinates, each batch is 1
    to 100 consecutive coordinates, and its URL is the base URL followed
    by the coordinates as [x,y] joined by bars. *)
Theorem fetch_requests (coords : list (string * string)) (w : world) :
  let w' := (fetch transport coords w).2 in
  files w' = files w /\
  exists asked : list (list (string * string) * nat),
    sent w'
    = rev (concat (map (fun bk =>
                          replicate bk.2
                            (BASE_URL +:+ String.concat "|" (map pair_text bk.1)))
                     asked)) ++ sent w /\
    map fst asked `prefix_of` batches_from 0 coords [] /\
    (length asked <= (length coords + 99) / 100)%nat /\
    Forall (fun bk =>
              (1 <= bk.2 <= RETRIES)%nat /\ (1 <= length bk.1 <= 100)%nat /\
              exists before after, coords = before ++ bk.1 ++ after) asked.
Proof.
  rewrite fetch_unfold.
  destruct (fetch_loop transport (length coords) 0 coords (gathered [], []) w)
    as [r w'] eqn:Hloop.
  pose proof (fetch_loop_files _ _ _ _ _ _ _ _ Hloop) as Hf.
  destruct (fetch_loop_asked _ _ _ _ _ _ _ _ Hloop) as [asked [Hs [Hp Hc]]].
  assert (Hw : (match r with
                | Ok st => (Ok st.2, w')
                | Raise e => (Raise e, w')
                end).2 = w') by (destruct r; reflexivity).
  cbv zeta. rewrite Hw. split; [exact Hf|].
  assert (Hb : Forall (fun bk => (1 <= length bk.1 <= 100)%nat /\
                         exists before after, coords = before ++ bk.1 ++ after) asked).
  { apply Forall_forall. intros bk Hbk.
    assert (Hin : bk.1 ∈ batches_from 0 coords []).
    { destruct Hp as [rest ->]. apply elem_of_app. left.
      apply list_elem_of_fmap. exists bk. split; [reflexivity|exact Hbk]. }
    destruct (batches_are_batches coords bk.1 Hin) as [Hslice Hlen].
    split; [exact Hlen|exact Hslice]. }
  exists asked. split; [|split; [exact Hp|split]].
  - rewrite Hs. f_equal. f_equal. unfold urls. f_equal.
    apply Forall_fmap_ext_1. eapply Forall_impl; [exact Hb|].
    intros bk [Hlen _]. simpl. f_equal. apply batch_url_joined.
    intros E. rewrite E in Hlen. simpl in Hlen. lia.
  - rewrite <- length_batches. apply prefix_length in Hp.
    rewrite length_map in Hp. exact Hp.
  - apply Forall_forall. intros bk Hbk.
    rewrite Forall_forall in Hc, Hb.
    destruct (Hb bk Hbk) as [Hlen Hslice].
    split; [apply Hc; exact Hbk|]. split; [exact Hlen|exact Hslice].
Qed.

(** X9. A failure that passes costs requests and no data. Take the last
    coordinate, closing a batch, the loop having run without error so far.
    If [k < RETRIES] tries are answered by a status code and the next one by
    a JSON object whose results all have an elevation, [fetch] returns the
    data gathered so far followed by those results, after [k + 1] requests
    for the batch. *)
Theorem fetch_retry_succeeds (total : nat) (pre : list (string * string))
    (coord : string * string) (st : string * list result) (w w1 : world)
    (k : nat) (results : list result) :
  (length pre mod 100 = 0)%nat ->
  fetch_loop transport total 0 pre ("", []) w = (Ok st, w1) ->
  (k < RETRIES)%nat ->
  (forall j, (j < k)%nat ->
     exists code,
       transport (replicate j (batch_request st.1 coord) ++ sent w1)
         (batch_request st.1 coord) = Status code) ->
  transport (replicate k (batch_request st.1 coord) ++ sent w1)
    (batch_request st.1 coord) = Dict results ->
  Forall (fun r => elevation r <> None) results ->
  fetch transport (pre ++ [coord]) w
  = (Ok (st.2 ++ results),
     World (files w1) (replicate (S k) (batch_request st.1 coord) ++ sent w1)).
Proof.
  intros Hidx Hpre Hk Hfail Hdict Hall.
  unfold fetch, bind, printProgressBar, ret.
  rewrite (fetch_loop_total _ _ total), fetch_loop_app, Hpre. simpl.
  unfold bind, fetch_body. rewrite Hidx. simpl (0 =? 0)%nat. cbv iota.
  unfold bind, rate_limit_wait, printProgressBar, ret.
  fold (batch_request st.1 coord).
  rewrite (get_retrying_answered _ _ _ _ _ _ Hk Hfail Hdict).
  replace (forallb (fun r0 => bool_decide (elevation r0 <> None)) results) with true.
  - reflexivity.
  - symmetry. apply forallb_forall. intros r Hr.
    apply bool_decide_eq_true_2.
    rewrite Forall_forall in Hall. apply Hall. apply list_elem_of_In. exact Hr.
Qed.

End Fetch_safety.

(** ** The call of the service *)

Section Call_facts.

Variable str : float -> string.
Variable round : float -> Z -> float.
Variable transport : list string -> string -> response.

Lemma fetch_complete (coords : list (string * string)) (w w' : world)
    (data : list result) :
  fetch transport coords w = (Ok data, w') ->
  Forall (fun r => elevation r <> None) data.
Proof.
  rewrite fetch_unfold.
  destruct (fetch_loop transport (length coords) 0 coords (gathered [], []) w)
    as [[st|e] w1] eqn:Hloop; [|discriminate].
  intros H. injection H as <- <-.
  destruct (fetch_loop_outcome transport _ _ _ _ _ _ _ _ (List.Forall_nil _) Hloop)
    as [_ [_ Hr]].
  exact Hr.
Qed.

(** X10. The argument errors of [API_call]. A mode outside [MODES] raises
    [ValueError]. In a mode of [MODES], when a keyword argument that the mode
    reads is not given, the call raises [KeyError] for the first such key in
    reading order. In both cases nothing is requested and nothing written. *)
Theorem API_call_bad_arguments (mode : string) (kw : kwargs) (w : world) :
  (mode ∉ MODES ->
     API_call str round transport mode kw w
     = (Raise (ValueError "Please select a mode from MODES: ['from_to', 'around']"), w))
  /\
  (mode ∈ MODES ->
     forall key, first_missing (required_kwargs mode kw) = Some key ->
     API_call str round transport mode kw w = (Raise (KeyError key), w)).
Proof.
  split.
  - intros Hmode. unfold API_call.
    rewrite bool_decide_eq_false_2 by exact Hmode. reflexivity.
  - intros Hmode key Hkey. unfold API_call.
    rewrite bool_decide_eq_true_2 by exact Hmode.
    unfold bind, lift.
    assert (Hf : format_coords str round mode kw = Raise (KeyError key)).
    { unfold format_coords, required_kwargs in *.
      destruct (bool_decide (Some mode = MODES !! 0%nat));
        destruct kw as [a b c nx ny wd ht]; simpl in *;
        destruct a, b, c, nx, ny, wd, ht; simpl in *;
        try discriminate; injection Hkey as <-; reflexivity. }
    rewrite Hf. reflexivity.
Qed.

(** X11. A dataset that [API_call] returns is whole: its three lists have
    one length, and no entry of any of them is [None]. Whatever the call
    returns or raises, no file has been written. *)
Theorem API_call_dataset (mode : string) (kw : kwargs) (w : world) :
  let (r, w') := API_call str round transport mode kw w in
  files w' = files w /\
  match r with
  | Ok (X, Y, Z) =>
      length X = length Y /\ length Y = length Z /\
      Forall is_Some X /\ Forall is_Some Y /\ Forall is_Some Z
  | Raise _ => True
  end.
Proof.
  destruct (API_call str round transport mode kw w) as [r w'] eqn:Hcall.
  split; [eapply API_call_files; exact Hcall|].
  destruct r as [[[X Y] Z]|e]; [|exact I].
  unfold API_call in Hcall. destruct (bool_decide (mode ∈ MODES)); [|discriminate].
  unfold bind, lift in Hcall.
  destruct (format_coords str round mode kw) as [coords|e]; [|discriminate].
  destruct (fetch transport coords w) as [[response|e] w1] eqn:Hfetch; [|discriminate].
  injection Hcall as <- <- <- <-.
  pose proof (fetch_complete _ _ _ _ Hfetch) as Hall.
  rewrite !length_map. split; [reflexivity|]. split; [reflexivity|].
  split; [|split].
  - apply Forall_fmap, Forall_forall. intros r _. simpl. eauto.
  - apply Forall_fmap, Forall_forall. intros r _. simpl. eauto.
  - apply Forall_fmap. eapply Forall_impl; [exact Hall|].
    intros r Hr. simpl in *. destruct (elevation r); [eauto|].
    exfalso. apply Hr. reflexivity.
Qed.

End Call_facts.

(** ** The records *)

Section Record_facts.

Variable str : float -> string.
Variable float_of_string : string -> option float.
Variable module_dir : string.

(** The row starts with the texts of the three floats of [p]; what follows
    them is free. *)
Let holds (row : list string) (p : float * float * float) : Prop :=
  exists a b c rest,
    row = a :: b :: c :: rest /\
    float_of_string a = Some p.1.1 /\
    float_of_string b = Some p.1.2 /\
    float_of_string c = Some p.2.

Lemma load_rows_holds (rows : list (list string)) (points : list (float * float * float))
    (x y z : list float) :
  Forall2 holds rows points ->
  load_rows float_of_string rows x y z
  = Ok (x ++ map (fun p => p.1.1) points,
        y ++ map (fun p => p.1.2) points,
        z ++ map (fun p => p.2) points).
Proof.
  intros H. revert x y z.
  induction H as [|row p rows points Hrow _ IH]; intros x y z; simpl.
  - rewrite !app_nil_r. reflexivity.
  - destruct Hrow as [a [b [c [rest [-> [Ha [Hb Hc]]]]]]].
    unfold float_at. simpl. rewrite Ha, Hb, Hc. simpl.
    rewrite IH, <- !app_assoc. reflexivity.
Qed.

(** X12. What [load_data] reads of a record. The first row is skipped
    whatever it holds (a record with no row at all is read as well); of
    every later row the first three fields are read as floats and the
    fields after them are ignored. When every later row starts with three
    texts of floats, the call returns the three columns, in the order of
    the rows, and leaves the world as it was. *)
Theorem load_data_reads (plot_name : string) (rows : list (list string))
    (points : list (float * float * float)) (w : world) :
  files w !! data_path module_dir plot_name = Some rows ->
  Forall2 (fun row p =>
             exists a b c rest,
               row = a :: b :: c :: rest /\
               float_of_string a = Some p.1.1 /\
               float_of_string b = Some p.1.2 /\
               float_of_string c = Some p.2)
    (tail rows) points ->
  load_data float_of_string module_dir plot_name w
  = (Ok (Some (map (fun p => p.1.1) points,
               map (fun p => p.1.2) points,
               map (fun p => p.2) points)), w).
Proof.
  intros Hrows Hpoints. unfold load_data. rewrite Hrows.
  rewrite (load_rows_holds _ _ _ _ _ Hpoints). reflexivity.
Qed.

Lemma lookup_data_rows (X Y Z : list cell) (i : nat) (x y z : cell) :
  X !! i = Some x -> Y !! i = Some y -> Z !! i = Some z ->
  data_rows str X Y Z !! i = Some [field str x; field str y; field str z].
Proof.
  intros Hx Hy Hz. unfold data_rows.
  rewrite list_lookup_fmap, !lookup_zip_with, Hx, Hy, Hz. reflexivity.
Qed.

Lemma data_rows_three (X Y Z : list cell) :
  Forall (fun row => length row = 3%nat) (data_rows str X Y Z).
Proof.
  unfold data_rows. apply Forall_fmap, Forall_forall. intros p _. reflexivity.
Qed.

(** On rows of three fields, the only error of [load_rows] is the
    [ValueError] of a field that is no float. *)
Lemma load_rows_value_error (rows : list (list string)) (x y z : list float) (e : exn) :
  Forall (fun row => length row = 3%nat) rows ->
  load_rows float_of_string rows x y z = Raise e ->
  exists msg, e = ValueError msg.
Proof.
  intros H. revert x y z.
  induction H as [|row rows Hrow _ IH]; intros x y z; simpl; [discriminate|].
  destruct row as [|a [|b [|c [|d row]]]]; try discriminate.
  unfold float_at. simpl.
  destruct (float_of_string a); simpl; [|intros H; injection H as <-; eauto].
  destruct (float_of_string b); simpl; [|intros H; injection H as <-; eauto].
  destruct (float_of_string c); simpl; [|intros H; injection H as <-; eauto].
  apply IH.
Qed.

(** X13. A dataset with a missing value is stored and cannot be loaded.
    When one of three lists of one length holds [None], and the empty text
    is no float (as for Python's [float]), [store_plot] with [overwrite]
    true writes the record and returns [True], and [load_data] on that
    record raises [ValueError]. *)
Theorem store_plot_missing_value (X Y Z : list cell) (plot_name : string)
    (w : world) :
  length X = length Y -> length Y = length Z ->
  None ∈ X \/ None ∈ Y \/ None ∈ Z ->
  float_of_string "" = None ->
  exists w1,
    store_plot str module_dir X Y Z plot_name true w = (Ok true, w1) /\
    exists msg,
      load_data float_of_string module_dir plot_name w1 = (Raise (ValueError msg), w1).
Proof.
  intros Hxy Hyz Hnone Hempty. eexists. split.
  - unfold store_plot. rewrite !bool_decide_eq_true_2 by assumption. reflexivity.
  - unfold cell in *. unfold load_data. simpl. rewrite lookup_insert_eq. simpl.
    assert (Hbad : Exists (fun row => exists i, (i < 3)%nat /\
                     match row !! i with
                     | Some s => float_of_string s = None
                     | None => True
                     end) (data_rows str X Y Z)).
    { assert (Hi : exists i x y z,
                X !! i = Some x /\ Y !! i = Some y /\ Z !! i = Some z /\
                (x = None \/ y = None \/ z = None)).
      { destruct Hnone as [H|[H|H]];
          apply list_elem_of_lookup in H as [i Hi];
          pose proof (lookup_lt_Some _ _ _ Hi) as Hlt;
          destruct (lookup_lt_is_Some_2 X i ltac:(lia)) as [x Hx];
          destruct (lookup_lt_is_Some_2 Y i ltac:(lia)) as [y Hy];
          destruct (lookup_lt_is_Some_2 Z i ltac:(lia)) as [z Hz];
          exists i, x, y, z; repeat split; try assumption;
          [left|right; left|right; right]; congruence. }
      destruct Hi as [i [x [y [z [Hx [Hy [Hz Hcase]]]]]]].
      apply Exists_exists. exists [field str x; field str y; field str z].
      split; [apply list_elem_of_lookup; exists i; apply lookup_data_rows; assumption|].
      destruct Hcase as [->|[->| ->]].
      - exists 0%nat. split; [lia|exact Hempty].
      - exists 1%nat. split; [lia|exact Hempty].
      - exists 2%nat. split; [lia|exact Hempty]. }
    destruct (load_rows_unreadable float_of_string _ [] [] [] Hbad) as [e He].
    destruct (load_rows_value_error _ _ _ _ _ (data_rows_three X Y Z) He) as [msg ->].
    rewrite He. exists msg. reflexivity.
Qed.

(** X14. The first record wins without [overwrite], the last one with it.
    On a name with no record, [store_plot] with [overwrite] false writes
    the dataset; a second dataset stored with [overwrite] false then
    changes nothing and returns [False]; stored with [overwrite] true it
    leaves the world that storing it alone would leave. *)
Theorem store_plot_first_and_last (X1 Y1 Z1 X2 Y2 Z2 : list cell)
    (plot_name : string) (w : world) :
  length X1 = length Y1 -> length Y1 = length Z1 ->
  length X2 = length Y2 -> length Y2 = length Z2 ->
  files w !! data_path module_dir plot_name = None ->
  exists w1,
    store_plot str module_dir X1 Y1 Z1 plot_name false w = (Ok true, w1) /\
    files w1 !! data_path module_dir plot_name
    = Some (CSV_HEADER :: data_rows str X1 Y1 Z1) /\
    store_plot str module_dir X2 Y2 Z2 plot_name false w1 = (Ok false, w1) /\
    store_plot str module_dir X2 Y2 Z2 plot_name true w1
    = store_plot str module_dir X2 Y2 Z2 plot_name true w.
Proof.
  intros H1 H1' H2 H2' Hnone. eexists. split; [|split; [|split]].
  - unfold store_plot. rewrite !bool_decide_eq_true_2 by assumption.
    rewrite (bool_decide_eq_false_2 (is_Some _)) by (rewrite Hnone; apply is_Some_None).
    reflexivity.
  - simpl. apply lookup_insert_eq.
  - unfold store_plot. rewrite !bool_decide_eq_true_2 by assumption. simpl.
    rewrite lookup_insert_eq.
    rewrite (bool_decide_eq_true_2 (is_Some _)) by eauto. reflexivity.
  - unfold store_plot. rewrite !bool_decide_eq_true_2 by assumption. simpl.
    rewrite insert_insert_eq. reflexivity.
Qed.

End Record_facts.

(** ** The centred grid, and what a run leaves behind *)

Section Around_facts.

Variable str : float -> string.
Variable round : float -> Z -> float.

(** The entries of the corridor grid, by row and column. *)
Lemma fetch_format_from_to_cells (from_coords to_coords : float * float) (nx ny : Z) :
  (0 <= nx)%Z -> (0 <= ny)%Z ->
  exists out,
    fetch_format_from_to str round from_coords to_coords nx ny = Ok out /\
    length out = (Z.to_nat ny * Z.to_nat nx)%nat /\
    forall i j, (i < Z.to_nat nx)%nat -> (j < Z.to_nat ny)%nat ->
      out !! (j * Z.to_nat nx + i)%nat
      = Some (str (round (linspace_at from_coords.1 to_coords.1 nx i) 7),
              str (linspace_at from_coords.2 to_coords.2 ny j)).
Proof.
  intros Hnx Hny. eexists. split; [apply fetch_format_from_to_ok; assumption|].
  split.
  - rewrite length_grid_rows, !length_map, !length_seq. reflexivity.
  - intros i j Hi Hj.
    pose proof (lookup_grid_rows str round
      (map (linspace_at from_coords.1 to_coords.1 nx) (seq 0 (Z.to_nat nx)))
      (map (linspace_at from_coords.2 to_coords.2 ny) (seq 0 (Z.to_nat ny)))
      i j (linspace_at from_coords.1 to_coords.1 nx i)
      (linspace_at from_coords.2 to_coords.2 ny j)) as H.
    rewrite length_map, length_seq in H. apply H.
    + rewrite list_lookup_fmap, lookup_seq_lt by lia. reflexivity.
    + rewrite list_lookup_fmap, lookup_seq_lt by lia. reflexivity.
Qed.

(** X15. The centred grid. For [nx >= 1] and [ny >= 1] the generator
    returns [nx * ny] pairs in row-major order, sampled between
    [center - size / 2] and [center + size / 2] in each dimension. With two
    or more columns, the last entry of every row has the [x] text of
    [center.x + width / 2], rounded to 7 decimals; with two or more rows,
    every entry of the last row has the [y] text of
    [center.y + height / 2]. *)
Theorem fetch_format_around_grid (center_coords : float * float) (nx ny : Z)
    (width height : float) :
  (1 <= nx)%Z -> (1 <= ny)%Z ->
  let x0 := (center_coords.1 - width / 2)%float in
  let x1 := (center_coords.1 + width / 2)%float in
  let y0 := (center_coords.2 - height / 2)%float in
  let y1 := (center_coords.2 + height / 2)%float in
  exists out,
    fetch_format_around str round center_coords nx ny width height = Ok out /\
    Z.of_nat (length out) = (nx * ny)%Z /\
    (forall i j, (i < Z.to_nat nx)%nat -> (j < Z.to_nat ny)%nat ->
       out !! (j * Z.to_nat nx + i)%nat
       = Some (str (round (linspace_at x0 x1 nx i) 7), str (linspace_at y0 y1 ny j))) /\
    ((2 <= nx)%Z -> forall j, (j < Z.to_nat ny)%nat ->
       out !! (j * Z.to_nat nx + (Z.to_nat nx - 1))%nat
       = Some (str (round x1 7), str (linspace_at y0 y1 ny j))) /\
    ((2 <= ny)%Z -> forall i, (i < Z.to_nat nx)%nat ->
       out !! ((Z.to_nat ny - 1) * Z.to_nat nx + i)%nat
       = Some (str (round (linspace_at x0 x1 nx i) 7), str y1)).
Proof.
  intros Hnx Hny x0 x1 y0 y1. unfold fetch_format_around.
  destruct (fetch_format_from_to_cells (x0, y0) (x1, y1) nx ny ltac:(lia) ltac:(lia))
    as [out [Hout [Hlen Hcell]]].
  simpl in Hcell.
  exists out. split; [exact Hout|]. split; [lia|]. split; [exact Hcell|]. split.
  - intros H2 j Hj. rewrite Hcell by lia.
    rewrite linspace_at_last by exact H2. reflexivity.
  - intros H2 i Hi. rewrite Hcell by lia.
    rewrite linspace_at_last by exact H2. reflexivity.
Qed.

End Around_facts.

Section Run_facts.

Variable str : float -> string.
Variable round : float -> Z -> float.
Variable transport : list string -> string -> response.
Variable float_of_string : string -> option float.
Variable module_dir : string.

(** With at least one try, the retry loop makes at least one request. *)
Lemma get_retrying_first (tries : nat) (url : string) (w w' : world)
    (r : outcome (list result)) :
  get_retrying transport (S tries) url w = (r, w') ->
  exists k, sent w' = replicate k url ++ url :: sent w.
Proof.
  simpl. unfold bind, _get. destruct (transport (sent w) url) as [results|code].
  - intros H. injection H as <- <-. exists 0%nat. reflexivity.
  - intros H. destruct (get_retrying_log transport _ _ _ _ _ H) as [k [_ [-> _]]].
    exists k. reflexivity.
Qed.

Lemma fetch_loop_log (total index : nat) (coords : list (string * string))
    (st : string * list result) (w w' : world)
    (r : outcome (string * list result)) :
  fetch_loop transport total index coords st w = (r, w') ->
  exists new, sent w' = new ++ sent w.
Proof.
  revert index st w. induction coords as [|c coords IH]; intros index st w; simpl.
  - intros H. injection H as <- <-. exists []. reflexivity.
  - unfold bind at 1.
    destruct (fetch_body transport total index c st w) as [[st1|e] w1] eqn:Hbody.
    + intros H. destruct (IH _ _ _ H) as [new Hnew].
      assert (Hb : exists new1, sent w1 = new1 ++ sent w).
      { unfold fetch_body in Hbody. destruct (index mod 100 =? 0)%nat.
        - unfold bind, rate_limit_wait, printProgressBar, ret in Hbody.
          destruct (get_retrying transport RETRIES _ w) as [[results|e] w2] eqn:Hget;
            [|discriminate].
          destruct (get_retrying_log transport _ _ _ _ _ Hget) as [k [_ [-> _]]].
          destruct (forallb _ results); [|discriminate].
          injection Hbody as _ <-. eexists. reflexivity.
        - injection Hbody as _ <-. exists []. reflexivity. }
      destruct Hb as [new1 Hnew1]. exists (new ++ new1).
      rewrite Hnew, Hnew1, app_assoc. reflexivity.
    + intros H. injection H as <- <-.
      unfold fetch_body in Hbody. destruct (index mod 100 =? 0)%nat; [|discriminate].
      unfold bind, rate_limit_wait, printProgressBar, ret in Hbody.
      destruct (get_retrying transport RETRIES _ w) as [[results|e1] w2] eqn:Hget;
        destruct (get_retrying_log transport _ _ _ _ _ Hget) as [k [_ [-> _]]].
      * destruct (forallb _ results); [discriminate|].
        injection Hbody as _ <-. eexists. reflexivity.
      * injection Hbody as _ <-. eexists. reflexivity.
Qed.

(** X16. The first request carries the first coordinate alone. Whatever
    the service answers, [fetch] on a non-empty list starts by requesting
    the base URL followed by [x,y] of the first coordinate; everything else
    it requests comes after. *)
Theorem fetch_first_request (coord : string * string)
    (coords : list (string * string)) (w : world) :
  exists later,
    sent (fetch transport (coord :: coords) w).2
    = later ++ (BASE_URL +:+ coord.1 +:+ "," +:+ coord.2) :: sent w.
Proof.
  rewrite fetch_unfold. simpl fetch_loop. unfold bind at 1.
  unfold fetch_body. change (0 mod 100 =? 0)%nat with true. cbv iota.
  unfold bind, rate_limit_wait, printProgressBar, ret. cbn [fst snd].
  change (gathered []) with "".
  change ("" +:+ coord.1 +:+ "," +:+ coord.2 +:+ "|")
    with (coord.1 +:+ "," +:+ coord.2 +:+ "|").
  replace (drop_last (coord.1 +:+ "," +:+ coord.2 +:+ "|"))
    with (coord.1 +:+ "," +:+ coord.2)
    by (rewrite <- !string_app_assoc, drop_last_bar; reflexivity).
  set (url := BASE_URL +:+ coord.1 +:+ "," +:+ coord.2).
  destruct (get_retrying transport RETRIES url w) as [[results|e] w1] eqn:Hget;
    destruct (get_retrying_first _ _ _ _ _ Hget) as [k Hk].
  - destruct (forallb _ results).
    + destruct (fetch_loop transport _ _ coords _ w1) as [[st|e] w2] eqn:Hloop;
        destruct (fetch_loop_log _ _ _ _ _ _ _ Hloop) as [new Hnew];
        exists (new ++ replicate k url); simpl;
        rewrite Hnew, Hk, <- app_assoc; reflexivity.
    + exists (replicate k url). simpl. exact Hk.
  - exists (replicate k url). simpl. exact Hk.
Qed.

(** X17. What a run leaves behind. Whatever a run of the script for a plot
    name returns or raises, every file other than the record of that name
    is as it was, and the log has only grown; when the run raises, no file
    at all has changed. *)
Theorem run_with_cache_frame (plot_name mode : string) (kw : kwargs) (w : world) :
  let (r, w') :=
    run_with_cache str round transport float_of_string module_dir plot_name mode kw w in
  (forall path, path <> data_path module_dir plot_name ->
     files w' !! path = files w !! path) /\
  (exists new, sent w' = new ++ sent w) /\
  (forall e, r = Raise e -> files w' = files w).
Proof.
  unfold run_with_cache, bind.
  destruct (load_data float_of_string module_dir plot_name w) as [l w0] eqn:Hload.
  pose proof (load_data_world _ _ _ _ _ _ Hload) as ->.
  destruct l as [[[[x y] z]|]|e].
  - split; [reflexivity|]. split; [exists []; reflexivity|reflexivity].
  - destruct (API_call str round transport mode kw w) as [[[[X Y] Z]|e] w1] eqn:Hcall.
    + pose proof (API_call_files _ _ _ _ _ _ _ _ Hcall) as Hf.
      assert (Hs : exists new, sent w1 = new ++ sent w).
      { unfold API_call in Hcall. destruct (bool_decide (mode ∈ MODES)); [|discriminate].
        unfold bind, lift in Hcall.
        destruct (format_coords str round mode kw); [|discriminate].
        rewrite fetch_unfold in Hcall.
        destruct (fetch_loop transport _ _ _ _ w) as [[st|e] w2] eqn:Hloop;
          [|discriminate].
        injection Hcall as _ _ _ <-.
        apply (fetch_loop_log _ _ _ _ _ _ _ Hloop). }
      unfold store_plot.
      destruct (bool_decide (length X = length Y) && bool_decide (length Y = length Z)).
      * simpl. split; [|split; [exact Hs|discriminate]].
        intros path Hpath. simpl. rewrite lookup_insert_ne by congruence.
        rewrite Hf. reflexivity.
      * split; [|split; [exact Hs|discriminate]].
        intros path _. rewrite Hf. reflexivity.
    + pose proof (API_call_files _ _ _ _ _ _ _ _ Hcall) as Hf.
      split; [intros path _; rewrite Hf; reflexivity|].
      split; [|intros _ _; exact Hf].
      unfold API_call in Hcall. destruct (bool_decide (mode ∈ MODES)).
      * unfold bind, lift in Hcall.
        destruct (format_coords str round mode kw).
        -- rewrite fetch_unfold in Hcall.
           destruct (fetch_loop transport _ _ _ _ w) as [[st|e1] w2] eqn:Hloop;
             [discriminate|].
           injection Hcall as _ <-.
           apply (fetch_loop_log _ _ _ _ _ _ _ Hloop).
        -- injection Hcall as _ <-. exists []. reflexivity.
      * injection Hcall as _ <-. exists []. reflexivity.
  - split; [reflexivity|]. split; [exists []; reflexivity|reflexivity].
Qed.

End Run_facts.

(** ** Facts on the clock *)

Section Clock_facts.

Variable transport : list string -> string -> response.
Variable took : list string -> string -> N.
Variable tick : positive.
Variable second : positive.













End Clock_facts.

(** ** The model at concrete inputs *)

Example linspace_0_1_5 :
  linspace 0 1 5 = Ok [0; 0.25; 0.5; 0.75; 1]%float.
Proof. vm_compute. reflexivity. Qed.

Example from_to_2_2 :
  fetch_format_from_to str_example round_example (0, 0)%float (2, 4)%float 2 2
  = Ok [("0.0", "0.0"); ("2.0", "0.0"); ("0.0", "4.0"); ("2.0", "4.0")].
Proof. vm_compute. reflexivity. Qed.

(** C1: the code at an input on which it departs from the claim. On two
    coordinates and a service that answers every request in full, [fetch]
    requests the first coordinate alone and returns one result: the second
    coordinate is gathered and never requested. *)
Theorem fetch_two_coords_one_result :
  fetch example_service [("0.0", "0.0"); ("1.0", "1.0")] empty_world
  = (Ok [Result (Location 0 0) (Some 100%float)],
     World ∅ [BASE_URL +:+ "0.0,0.0"]).
Proof. vm_compute. reflexivity. Qed.

(** The degenerate case [nx = ny = 1]: between the corners [(0, 0)] and
    [(1, 1)] the generator returns the [from] corner alone. *)
Example fetch_format_from_to_one_sample :
  exists out,
    fetch_format_from_to str_example round_example (0, 0)%float (1, 1)%float 1 1
    = Ok out /\
    forall c, c ∈ out ->
      c.1 <> str_example (round_example 1 7) /\ c.2 <> str_example 1.
Proof.
  exists [("0.0", "0.0")]. split; [vm_compute; reflexivity|].
  intros c Hc. apply list_elem_of_singleton in Hc as ->.
  vm_compute. split; discriminate.
Qed.

Lemma fetch_format_from_to_row_major_witness :
  exists out,
    fetch_format_from_to str_example round_example (0, 0)%float (2, 4)%float 2 3
    = Ok out /\
    Z.of_nat (length out) = 6%Z /\
    out !! 0%nat = Some ("0.0", "0.0") /\
    out !! 5%nat = Some ("2.0", "4.0") /\
    out !! 3%nat = Some ("2.0", "2.0").
Proof.
  destruct (fetch_format_from_to_row_major str_example round_example
              (0, 0)%float (2, 4)%float 2 3 ltac:(lia) ltac:(lia))
    as [out [Hout [Hlen [Hcell _]]]].
  exists out. split; [exact Hout|]. split; [exact Hlen|]. split; [|split].
  - apply (Hcell 0%nat 0%nat); vm_compute; lia.
  - apply (Hcell 1%nat 2%nat); vm_compute; lia.
  - apply (Hcell 1%nat 1%nat); vm_compute; lia.
Defined.

(** C8: the claim at [nx = 0]. The generator returns the empty list and
    raises nothing. *)
Lemma fetch_format_from_to_zero_columns :
  fetch_format_from_to str_example round_example (0, 0)%float (1, 1)%float 0 1
  = Ok [].
Proof. vm_compute. reflexivity. Qed.

Lemma fetch_format_from_to_small_counts_witness :
  fetch_format_from_to str_example round_example (0, 0)%float (1, 1)%float 0 1 = Ok [] /\
  exists msg,
    fetch_format_from_to str_example round_example (0, 0)%float (1, 1)%float 1 (-1)
    = Raise (ValueError msg).
Proof.
  split.
  - apply (fetch_format_from_to_small_counts str_example round_example
             (0, 0)%float (1, 1)%float 0 1). right. split; [lia|reflexivity].
  - apply (fetch_format_from_to_small_counts str_example round_example
             (0, 0)%float (1, 1)%float 1 (-1)). left. lia.
Defined.

Lemma fetch_retries_exhausted_witness :
  fetch example_outage [("0.0", "0.0"); ("1.0", "1.0")] empty_world
  = (Raise (TimeoutError "Server not returning data"),
     World ∅ (replicate 10 (BASE_URL +:+ "0.0,0.0"))).
Proof.
  apply (fetch_retries_exhausted example_outage 2 [] [("1.0", "1.0")] ("0.0", "0.0")
           ("", []) empty_world empty_world).
  - reflexivity.
  - reflexivity.
  - intros k Hk. exists 503%Z. reflexivity.
Defined.

Lemma fetch_missing_elevation_witness :
  fetch example_no_coverage [("0.0", "0.0"); ("1.0", "1.0")] empty_world
  = (Raise (ValueError "API didn't like your coordinates: 0.0,0.0"),
     World ∅ (replicate 2 (BASE_URL +:+ "0.0,0.0"))).
Proof.
  apply (fetch_missing_elevation example_no_coverage 2 [] [("1.0", "1.0")]
           ("0.0", "0.0") ("", []) empty_world empty_world 1
           [Result (Location 0 0) None]).
  - reflexivity.
  - reflexivity.
  - unfold RETRIES. lia.
  - intros j Hj. assert (j = 0%nat) as -> by lia. exists 503%Z. reflexivity.
  - reflexivity.
  - exists (Result (Location 0 0) None). split; [left|reflexivity].
Defined.

Lemma store_then_load_witness :
  exists w1,
    store_plot str_example example_dir [Some 1; Some 2]%float [Some 3; Some 4]%float
      [Some 100; Some 250]%float "hill" true empty_world = (Ok true, w1) /\
    load_data float_of_string_example example_dir "hill" w1
    = (Ok (Some ([1; 2], [3; 4], [100; 250])%float), w1).
Proof.
  apply (store_then_load str_example float_of_string_example example_dir "hill"
           [1; 2]%float [3; 4]%float [100; 250]%float empty_world).
  - reflexivity.
  - reflexivity.
  - repeat constructor.
Defined.

Lemma store_plot_keeps_existing_witness :
  store_plot str_example example_dir [Some 7%float] [Some 8%float] [Some 9%float]
    "hill" false hill_world = (Ok false, hill_world).
Proof.
  apply (store_plot_keeps_existing str_example example_dir).
  exists [CSV_HEADER; ["1.0"; "3.0"; "100.0"]; ["2.0"; "4.0"; "250.0"]].
  vm_compute. reflexivity.
Defined.

Lemma store_plot_unequal_lengths_witness :
  store_plot str_example example_dir [Some 7%float; Some 6%float] [Some 8%float]
    [Some 9%float] "hill" true empty_world = (Ok false, empty_world).
Proof.
  apply (store_plot_unequal_lengths str_example example_dir).
  simpl. intros [H _]. discriminate H.
Defined.

Example example_kwargs_coords :
  format_coords str_example round_example "around" example_kwargs
  = Ok [("0.0", "0.0"); ("2.0", "0.0"); ("0.0", "2.0"); ("2.0", "2.0")].
Proof. vm_compute. reflexivity. Qed.

Lemma run_with_cache_hit_or_miss_witness :
  run_with_cache str_example round_example example_service float_of_string_example
    example_dir "hill" "around" example_kwargs hill_world
  = (Ok ([Some 1; Some 2], [Some 3; Some 4], [Some 100; Some 250])%float, hill_world)
  /\
  format_coords str_example round_example "around" example_kwargs
  = Ok [("0.0", "0.0"); ("2.0", "0.0"); ("0.0", "2.0"); ("2.0", "2.0")] /\
  exists w2,
    run_with_cache str_example round_example example_service float_of_string_example
      example_dir "hill" "around" example_kwargs empty_world
    = (Ok ([Some 0], [Some 0], [Some 100])%float, w2) /\
    files w2 !! "/srv/ElevationPlot/data/hill.csv"
    = Some [CSV_HEADER; ["0.0"; "0.0"; "100.0"]] /\
    sent w2 = [BASE_URL +:+ "0.0,0.0"].
Proof.
  split; [|split].
  - apply (proj1 (run_with_cache_hit_or_miss str_example round_example
                    example_service float_of_string_example example_dir
                    example_answer "hill" "around" example_kwargs hill_world)
             [1; 2]%float [3; 4]%float [100; 250]%float hill_world).
    vm_compute. reflexivity.
  - vm_compute. reflexivity.
  - destruct (proj2 (run_with_cache_hit_or_miss str_example round_example
                       example_service float_of_string_example example_dir
                       example_answer "hill" "around" example_kwargs empty_world)
                [("0.0", "0.0"); ("2.0", "0.0"); ("0.0", "2.0"); ("2.0", "2.0")])
      as [Hrun _].
    + vm_compute. reflexivity.
    + right. left.
    + vm_compute. reflexivity.
    + intros c Hc. discriminate.
    + vm_compute (batches_from 0 _ []).
      repeat (apply List.Forall_cons; [intros earlier; vm_compute; reflexivity|]).
      apply List.Forall_nil.
    + eexists. split; [exact Hrun|]. split; vm_compute; reflexivity.
Defined.

Lemma run_with_cache_failure_witness :
  run_with_cache str_example round_example example_outage float_of_string_example
    example_dir "hill" "around" example_kwargs empty_world
  = (Raise (TimeoutError "Server not returning data"),
     World ∅ (replicate 10 (BASE_URL +:+ "0.0,0.0"))).
Proof.
  apply (run_with_cache_failure str_example round_example example_outage
           float_of_string_example example_dir "hill" "around" example_kwargs
           empty_world).
  - vm_compute. reflexivity.
  - vm_compute. reflexivity.
Defined.

Lemma fetch_answers_requested_witness :
  fetch example_service [("0.0", "0.0"); ("1.0", "1.0")] empty_world
  = (Ok [example_answer ("0.0", "0.0")], World ∅ [BASE_URL +:+ "0.0,0.0"]).
Proof.
  apply (fetch_answers_requested example_service example_answer
           [("0.0", "0.0"); ("1.0", "1.0")] empty_world).
  - intros c Hc. discriminate.
  - repeat constructor.
Defined.

Lemma run_with_cache_second_run_witness :
  run_with_cache str_example round_example example_outage float_of_string_example
    example_dir "hill" "around" example_kwargs
    (World {[ "/srv/ElevationPlot/data/hill.csv" :=
                [CSV_HEADER; ["0.0"; "0.0"; "100.0"]] ]} [])
  = (Ok ([Some 0], [Some 0], [Some 100])%float,
     World {[ "/srv/ElevationPlot/data/hill.csv" :=
                [CSV_HEADER; ["0.0"; "0.0"; "100.0"]] ]} []).
Proof.
  apply (run_with_cache_second_run str_example round_example example_outage
           float_of_string_example example_dir "hill" "around" example_kwargs
           [Result (Location 0 0) (Some 100%float)] empty_world).
  - repeat constructor. discriminate.
  - repeat constructor. intros z Hz. injection Hz as <-. reflexivity.
  - vm_compute. reflexivity.
Defined.

Lemma load_data_missing_or_unreadable_witness :
  load_data float_of_string_example example_dir "hill" empty_world
  = (Ok None, empty_world) /\
  exists e,
    (e = IndexError \/ exists msg, e = ValueError msg) /\
    load_data float_of_string_example example_dir "hill"
      (World {[ "/srv/ElevationPlot/data/hill.csv" :=
                  [CSV_HEADER; ["1.0"; "3.0"]] ]} [])
    = (Raise e,
       World {[ "/srv/ElevationPlot/data/hill.csv" :=
                  [CSV_HEADER; ["1.0"; "3.0"]] ]} []).
Proof.
  split.
  - apply (proj1 (load_data_missing_or_unreadable float_of_string_example
                    example_dir "hill" empty_world)).
    vm_compute. reflexivity.
  - apply (proj2 (load_data_missing_or_unreadable float_of_string_example
                    example_dir "hill" _) [CSV_HEADER; ["1.0"; "3.0"]]).
    + vm_compute. reflexivity.
    + left. exists 2%nat. split; [lia|exact I].
Defined.

Lemma store_plot_overwrites_witness :
  exists w',
    store_plot str_example example_dir [Some 7%float] [Some 8%float] [Some 9%float]
      "hill" true hill_world = (Ok true, w') /\
    files w' !! "/srv/ElevationPlot/data/hill.csv"
    = Some [CSV_HEADER; ["7.0"; "8.0"; "9.0"]].
Proof.
  destruct (store_plot_overwrites str_example example_dir
              [Some 7%float] [Some 8%float] [Some 9%float] "hill" hill_world
              eq_refl eq_refl) as [w' [Hstore [Hfile _]]].
  exists w'. split; [exact Hstore|exact Hfile].
Defined.

(** Two hundred and fifty coordinates: three requests, and the answers to
    the first 201 coordinates. *)
Example fetch_250_coords :
  let coords := map (fun i => (pretty (Z.of_nat i) +:+ ".0", "0.0")) (seq 0 250) in
  exists data w',
    fetch example_service coords empty_world = (Ok data, w') /\
    length data = 201%nat /\ length (sent w') = 3%nat.
Proof.
  eexists _, _. split; [vm_compute; reflexivity|].
  split; reflexivity.
Qed.

Lemma main_stores_2401_points_witness :
  exists X Y Z w2,
    main str_example round_example example_service float_of_string_example
      example_dir empty_world = (Ok (X, Y, Z), w2) /\
    length X = 2401%nat /\ length (sent w2) = 25%nat.
Proof.
  destruct (main_stores_2401_points str_example round_example example_service
              float_of_string_example example_dir example_answer
              main_coords_example empty_world)
    as [_ [X [Y [Z [w2 [Hrun [HX [_ [_ [Hsent _]]]]]]]]]].
  - vm_compute. reflexivity.
  - vm_compute. reflexivity.
  - intros c Hc. discriminate.
  - vm_compute (batches_from 0 main_coords_example []).
    repeat (apply List.Forall_cons; [intros earlier; vm_compute; reflexivity|]).
    apply List.Forall_nil.
  - exists X, Y, Z, w2. split; [exact Hrun|]. split; [exact HX|exact Hsent].
Defined.

Lemma fetch_outcome_witness :
  match fetch example_no_coverage [("0.0", "0.0"); ("1.0", "1.0")] empty_world with
  | (Ok data, _) => Forall (fun r => elevation r <> None) data
  | (Raise e, _) =>
      e = TimeoutError "Server not returning data" \/
      exists before b after,
        [("0.0", "0.0"); ("1.0", "1.0")] = before ++ b ++ after /\
        (1 <= length b <= 100)%nat /\
        e = ValueError ("API didn't like your coordinates: " +:+
                        String.concat "|" (map pair_text b))
  end.
Proof.
  apply (fetch_outcome example_no_coverage [("0.0", "0.0"); ("1.0", "1.0")]
           empty_world).
  discriminate.
Defined.

Lemma fetch_retry_succeeds_witness :
  fetch example_recovering [("0.0", "0.0")] empty_world
  = (Ok [example_answer ("0.0", "0.0")],
     World ∅ (replicate 2 (BASE_URL +:+ "0.0,0.0"))).
Proof.
  apply (fetch_retry_succeeds example_recovering 1 [] ("0.0", "0.0") ("", [])
           empty_world empty_world 1 [example_answer ("0.0", "0.0")]).
  - reflexivity.
  - reflexivity.
  - unfold RETRIES. lia.
  - intros j Hj. assert (j = 0%nat) as -> by lia. exists 503%Z. reflexivity.
  - vm_compute. reflexivity.
  - repeat constructor. discriminate.
Defined.

Lemma API_call_bad_arguments_witness :
  API_call str_example round_example example_service "sideways" example_kwargs
    empty_world
  = (Raise (ValueError "Please select a mode from MODES: ['from_to', 'around']"),
     empty_world)
  /\
  API_call str_example round_example example_service "from_to" example_kwargs
    empty_world
  = (Raise (KeyError "from_coords"), empty_world).
Proof.
  split.
  - apply (proj1 (API_call_bad_arguments str_example round_example example_service
                    "sideways" example_kwargs empty_world)).
    intros H. repeat (apply elem_of_cons in H as [H|H]; [discriminate H|]).
    inversion H.
  - apply (proj2 (API_call_bad_arguments str_example round_example example_service
                    "from_to" example_kwargs empty_world)).
    + left.
    + reflexivity.
Defined.

Lemma load_data_reads_witness :
  load_data float_of_string_example example_dir "hill"
    (World {[ "/srv/ElevationPlot/data/hill.csv" :=
                [["no header"]; ["1.0"; "3.0"; "100.0"; "a fourth field"]] ]} [])
  = (Ok (Some ([1], [3], [100])%float),
     World {[ "/srv/ElevationPlot/data/hill.csv" :=
                [["no header"]; ["1.0"; "3.0"; "100.0"; "a fourth field"]] ]} []).
Proof.
  apply (load_data_reads float_of_string_example example_dir "hill"
           [["no header"]; ["1.0"; "3.0"; "100.0"; "a fourth field"]]
           [(1, 3, 100)%float]).
  - vm_compute. reflexivity.
  - repeat constructor.
    exists "1.0", "3.0", "100.0", ["a fourth field"].
    repeat split; vm_compute; reflexivity.
Defined.

Lemma store_plot_missing_value_witness :
  exists w1,
    store_plot str_example example_dir [Some 1%float] [Some 3%float] [None]
      "hill" true empty_world = (Ok true, w1) /\
    exists msg,
      load_data float_of_string_example example_dir "hill" w1
      = (Raise (ValueError msg), w1).
Proof.
  apply (store_plot_missing_value str_example float_of_string_example example_dir
           [Some 1%float] [Some 3%float] [None] "hill" empty_world).
  - reflexivity.
  - reflexivity.
  - right. right. left.
  - vm_compute. reflexivity.
Defined.

Lemma store_plot_first_and_last_witness :
  exists w1,
    store_plot str_example example_dir [Some 1%float] [Some 3%float] [Some 100%float]
      "hill" false empty_world = (Ok true, w1) /\
    store_plot str_example example_dir [Some 7%float] [Some 8%float] [Some 9%float]
      "hill" false w1 = (Ok false, w1).
Proof.
  destruct (store_plot_first_and_last str_example example_dir
              [Some 1%float] [Some 3%float] [Some 100%float]
              [Some 7%float] [Some 8%float] [Some 9%float] "hill" empty_world
              eq_refl eq_refl eq_refl eq_refl)
    as [w1 [Hfirst [_ [Hsecond _]]]].
  - vm_compute. reflexivity.
  - exists w1. split; [exact Hfirst|exact Hsecond].
Defined.

Lemma fetch_format_around_grid_witness :
  exists out,
    fetch_format_around str_example round_example (1, 1)%float 2 2 2 2 = Ok out /\
    Z.of_nat (length out) = 4%Z /\
    out !! 0%nat = Some ("0.0", "0.0") /\
    out !! 3%nat = Some ("2.0", "2.0").
Proof.
  destruct (fetch_format_around_grid str_example round_example (1, 1)%float 2 2 2 2
              ltac:(lia) ltac:(lia))
    as [out [Hout [Hlen [Hcell [Hlast _]]]]].
  exists out. split; [exact Hout|]. split; [exact Hlen|]. split.
  - apply (Hcell 0%nat 0%nat); vm_compute; lia.
  - apply (Hlast ltac:(lia) 1%nat). vm_compute. lia.
Defined.

(** A hundred and two coordinates on a clock. The first request, at time
    0, is answered by a status code after 300 units; the second try is made
    at once and answered; the request of the second batch starts when the
    busy wait, which reads the clock every 7 units, first finds a second
    (1000 units) gone since that answer was in. *)
Example fetch_102_coords_on_a_clock :
  let coords := map (fun i => (pretty (Z.of_nat i) +:+ ".0", "0.0")) (seq 0 102) in
  map snd (Timed.requests
             (Timed.fetch example_recovering (fun _ _ => 300%N) 7 1000 coords
                (Timed.TWorld ∅ [] 0)).2)
  = [1601; 300; 0]%Z.
Proof. vm_compute. reflexivity. Qed.
